(** * QCompress: the quantum autoencoder circuit builder (qae_circuit.py)

    A shallow embedding of the class [QAECircuit] and a verification of the
    properties its specification states about the programs it builds.

    Conventions of the embedding.
    - Qubit labels and counts are [nat] (pyquil accepts only non-negative
      qubit indices); rotation angles are Python numerics, embedded as [Z],
      the only operation the code applies to them being [-1 * x].
    - A Python exception is a value [Raise e] of the type [result]; the
      helper methods, which only use local variables, live in the error
      monad, and [build_circuit], which updates [self.program], lives in a
      state and error monad over the object.
    - pyquil is an external library.  It is taken at the boundary the code
      uses it through, which the specification words as "a gate type keyed
      by name resolves to a constructor that turns (angle, qubit[, qubit])
      into an instruction": a constructor, applied to angles and then to
      qubits, yields the instruction that carries the constructor's name.
      The constructors of pyquil's own gates [RX], [RY] and [RZ] accept one
      angle and one qubit and raise on any other call; the constructor of
      a gate definition takes whatever it is given.  A program is a list
      of gate definitions and a list of instructions. *)

From stdpp Require Import base list gmap strings.
From Stdlib Require Import ZArith.

Local Open Scope Z_scope.
Local Open Scope nat_scope.

(** ** Exceptions and the error monad *)

Inductive exn : Set := IndexError | KeyError | ValueError.

Inductive result (A : Type) : Type :=
| Ok (a : A)
| Raise (e : exn).
Arguments Ok {A} a.
Arguments Raise {A} e.

#[global] Instance result_ret : MRet result := λ A a, Ok a.
#[global] Instance result_bind : MBind result := λ A B f r,
  match r with
  | Ok a => f a
  | Raise e => Raise e
  end.

(** [l[i]] for a non-negative index. *)
Definition getitem {A} (l : list A) (i : nat) : result A :=
  match l !! i with
  | Some a => Ok a
  | None => Raise IndexError
  end.

(** [l[a:b]] for non-negative bounds: a slice never raises, it is cut at
    the end of the list. *)
Definition slice {A} (l : list A) (a b : nat) : list A :=
  take (b - a) (drop a l).

(** [d[k]] for a dictionary. *)
Definition dict_getitem `{Countable K} {V} (d : gmap K V) (k : K) : result V :=
  match d !! k with
  | Some v => Ok v
  | None => Raise KeyError
  end.

(** [dict(pairs)]: the pairs are inserted from left to right, a later pair
    replaces an earlier one with the same key. *)
Definition dict `{Countable K} {V} (pairs : list (K * V)) : gmap K V :=
  foldl (λ d kv, <[kv.1 := kv.2]> d) ∅ pairs.

(** ** The part of pyquil the class uses *)

Module pyquil.

(** Symbolic matrix entries ([pyquil.parameters]). *)
Inductive Expression : Type :=
| Int (z : Z)
| Imag (z : Z)                        (* z * 1j *)
| Param (p : string)                   (* Parameter(p) *)
| Div (a b : Expression)
| Mul (a b : Expression)
| Add (a b : Expression)
| Sub (a b : Expression)
| quil_sin (a : Expression)
| quil_cos (a : Expression).

Record Gate : Type := mkGate {
  name : string;
  params : list Z;
  qubits : list nat
}.

Record DefGate : Type := mkDefGate {
  def_name : string;
  matrix : list (list Expression);
  parameters : list Expression
}.

(** A gate constructor: angles, then qubits; the call may raise. *)
Definition constructor : Type := list Z → list nat → result Gate.

(** The gates that pyquil itself provides with one angle and one qubit.
    The code calls them on an angle and a qubit at once, and curried, on
    the angles and then on the qubits of an instruction; either way the
    call is given angles and qubits, and one with another number of angles
    or of qubits is refused with a ValueError. *)
Definition standard_gate (name : string) : constructor := λ params qubits,
  if decide (length params = 1 ∧ length qubits = 1)
  then Ok (mkGate name params qubits)
  else Raise ValueError.

(** [pyquil.gates.RX] and its siblings. *)
Definition RX : constructor := standard_gate "RX".
Definition RY : constructor := standard_gate "RY".
Definition RZ : constructor := standard_gate "RZ".

(** [DefGate.get_constructor]: the instructions carry the name of the
    definition; the angles and the qubits are not checked. *)
Definition get_constructor (d : DefGate) : constructor := λ params qubits,
  Ok (mkGate (def_name d) params qubits).

Record Program : Type := mkProgram {
  defined_gates : list DefGate;
  instructions : list Gate
}.

(** [Program()], [Program(gate)] and [Program(def, ...)]. *)
Definition empty : Program := mkProgram [] [].
Definition of_gate (g : Gate) : Program := mkProgram [] [g].
Definition of_defs (ds : list DefGate) : Program := mkProgram ds [].

(** [p + q], also [p += q] and [p.inst(q)] for a program [q]: the
    definitions and the instructions of [q] are appended to those of [p]. *)
Definition add (p q : Program) : Program :=
  mkProgram (defined_gates p ++ defined_gates q) (instructions p ++ instructions q).

(** [p.inst(gate)]. *)
Definition inst (p : Program) (g : Gate) : Program :=
  mkProgram (defined_gates p) (instructions p ++ [g]).

End pyquil.

Abbreviation Gate := pyquil.Gate.
Abbreviation Program := pyquil.Program.

#[global] Instance Gate_eq_dec : EqDecision Gate.
Proof. solve_decision. Defined.

(** ** The class QAECircuit *)

Module QAECircuit.
Import pyquil.

(** *** Class attributes *)

Definition theta : Expression := Param "theta".

Definition crx : list (list Expression) :=
  [ [Int 1; Int 0; Int 0; Int 0];
    [Int 0; Int 1; Int 0; Int 0];
    [Int 0; Int 0; quil_cos (Div theta (Int 2)); Mul (Imag (-1)) (quil_sin (Div theta (Int 2)))];
    [Int 0; Int 0; Mul (Imag (-1)) (quil_sin (Div theta (Int 2))); quil_cos (Div theta (Int 2))] ].
Definition crx_def : DefGate := mkDefGate "CRX" crx [theta].
Definition CRX : constructor := get_constructor crx_def.

Definition cry : list (list Expression) :=
  [ [Int 1; Int 0; Int 0; Int 0];
    [Int 0; Int 1; Int 0; Int 0];
    [Int 0; Int 0; quil_cos (Div theta (Int 2)); Mul (Int (-1)) (quil_sin (Div theta (Int 2)))];
    [Int 0; Int 0; quil_sin (Div theta (Int 2)); quil_cos (Div theta (Int 2))] ].
Definition cry_def : DefGate := mkDefGate "CRY" cry [theta].
Definition CRY : constructor := get_constructor cry_def.

Definition crz : list (list Expression) :=
  [ [Int 1; Int 0; Int 0; Int 0];
    [Int 0; Int 1; Int 0; Int 0];
    [Int 0; Int 0;
     Sub (quil_cos (Div theta (Int 2))) (Mul (Imag 1) (quil_sin (Div theta (Int 2)))); Int 0];
    [Int 0; Int 0; Int 0;
     Add (quil_cos (Div theta (Int 2))) (Mul (Imag 1) (quil_sin (Div theta (Int 2))))] ].
Definition crz_def : DefGate := mkDefGate "CRZ" crz [theta].
Definition CRZ : constructor := get_constructor crx_def.

Definition gates_dict : gmap string constructor :=
  <["RX" := RX]> (<["CRX" := CRX]> (
  <["RY" := RY]> (<["CRY" := CRY]> (
  <["RZ" := RZ]> (<["CRZ" := CRZ]> ∅))))).

(** *** Instances *)

Record t : Type := mk {
  num_qubits : nat;
  num_latent_qubits : nat;
  num_input_qubits : nat;
  qubits : list nat;
  axes : list string;
  thetas : list Z;
  program : Program
}.

Definition set_program (self : t) (p : Program) : t :=
  mk (num_qubits self) (num_latent_qubits self) (num_input_qubits self)
     (qubits self) (axes self) (thetas self) p.

(** [__init__]; an absent optional argument is [None]. *)
Definition init (num_qubits num_latent_qubits : nat) (thetas : list Z)
    (axes : option (list string)) (qubits : option (list nat)) : t :=
  let num_input_qubits := (num_qubits + num_latent_qubits) `div` 2 in
  mk num_qubits num_latent_qubits num_input_qubits
     (match qubits with
      | None => seq 0 num_qubits
      | Some qubits => qubits
      end)
     (match axes with
      | None => replicate (num_input_qubits + 2) "X"%string
      | Some axes => axes
      end)
     thetas
     empty.

Definition def_gates_program : Program := of_defs [crx_def; cry_def; crz_def].

(** *** The block builders *)

Definition gate_from_axis (axes : string) (num_qubits : nat) : result constructor :=
  let gate_str := ("R" +:+ axes)%string in
  let gate_str := if decide (2 = num_qubits) then ("C" +:+ gate_str)%string else gate_str in
  dict_getitem gates_dict gate_str.

(** The loop of [build_rotation_block], from position [i] on. *)
Fixpoint rotation_loop (gate : constructor) (thetas : list Z)
    (i : nat) (qubits : list nat) (program : Program) : result Program :=
  match qubits with
  | [] => Ok program
  | qubit :: rest =>
      th ← getitem thetas i;
      g ← gate [th] [qubit];
      rotation_loop gate thetas (S i) rest (add program (of_gate g))
  end.

Definition build_rotation_block (axis : string) (qubits : list nat) (thetas : list Z)
    : result Program :=
  gate ← gate_from_axis axis 1;
  rotation_loop gate thetas 0 qubits empty.

(** The loop of [build_controlled_rotation_block]; [i] counts the angles
    used so far. *)
Fixpoint controlled_loop (gate : constructor) (thetas : list Z) (qubit_control : nat)
    (i : nat) (qubits : list nat) (program : Program) : result Program :=
  match qubits with
  | [] => Ok program
  | qubit :: rest =>
      if decide (qubit ≠ qubit_control) then
        th ← getitem thetas i;
        g ← gate [th] [qubit_control; qubit];
        controlled_loop gate thetas qubit_control (S i) rest (add program (of_gate g))
      else controlled_loop gate thetas qubit_control i rest program
  end.

Definition build_controlled_rotation_block (axis : string) (qubits : list nat)
    (thetas : list Z) (qubit_control : nat) : result Program :=
  gate ← gate_from_axis axis 2;
  controlled_loop gate thetas qubit_control 0 qubits empty.

(** *** dagger_and_flip *)

(** The inner loop: the qubits of one gate, looked up from left to right. *)
Fixpoint flip_qubits (qubits_reversed : gmap nat nat) (gate_qubits : list nat)
    : result (list nat) :=
  match gate_qubits with
  | [] => Ok []
  | i :: rest =>
      q ← dict_getitem qubits_reversed i;
      qs ← flip_qubits qubits_reversed rest;
      Ok (q :: qs)
  end.

Definition flip_gate (qubits_reversed : gmap nat nat) (gate : Gate) : result Gate :=
  gate_qubits ← flip_qubits qubits_reversed (pyquil.qubits gate);
  let negated_params := map (λ x, (-1 * x)%Z) (params gate) in
  ctor ← dict_getitem gates_dict (name gate);
  ctor negated_params gate_qubits.

(** The outer loop, over the instructions already reversed. *)
Fixpoint flip_loop (qubits_reversed : gmap nat nat) (gates : list Gate)
    (flipped_program : Program) : result Program :=
  match gates with
  | [] => Ok flipped_program
  | gate :: rest =>
      g ← flip_gate qubits_reversed gate;
      flip_loop qubits_reversed rest (inst flipped_program g)
  end.

Definition dagger_and_flip (program : Program) (qubits : list nat) : result Program :=
  let qubits_reversed := dict (zip qubits (reverse qubits)) in
  flip_loop qubits_reversed (reverse (instructions program)) empty.

(** *** build_circuit *)

(** A method that may update the object and may raise: when it raises,
    the updates made before are kept. *)
Definition method (A : Type) : Type := t → result A * t.

#[global] Instance method_ret : MRet method := λ A a self, (Ok a, self).
#[global] Instance method_bind : MBind method := λ A B f m self,
  match m self with
  | (Ok a, self') => f a self'
  | (Raise e, self') => (Raise e, self')
  end.

(** A computation that does not touch the object. *)
Definition pure {A} (r : result A) : method A := λ self, (r, self).

(** [self.program] and [self.program += p]. *)
Definition get_program : method Program := λ self, (Ok (program self), self).
Definition iadd_program (p : Program) : method unit :=
  λ self, (Ok (), set_program self (add (program self) p)).

(** The loop [for i in range(self.num_input_qubits)], over the indices
    still to visit.  [build_circuit] assigns no attribute but
    [self.program], so the others are read from the object it was
    called on. *)
Fixpoint controlled_blocks (self : t) (qubits : list nat) (range : list nat)
    : method unit :=
  match range with
  | [] => mret ()
  | i :: rest =>
      axis ← pure (getitem (axes self) (i + 1));
      control_qubit ← pure (getitem qubits i);
      let start_theta := num_input_qubits self + (num_input_qubits self - 1) * i in
      let end_theta := start_theta + (num_input_qubits self - 1) in
      let thetas := slice (thetas self) start_theta end_theta in
      block ← pure (build_controlled_rotation_block axis qubits thetas control_qubit);
      iadd_program block;;
      controlled_blocks self qubits rest
  end.

(** The counts are natural numbers: [num_input_qubits - 1] is below zero
    in Python only when there is no input qubit, and then it is only
    multiplied by zero (the loop does not run), which gives zero here too. *)
Definition build_circuit (self : t) : result Program * t :=
  (iadd_program def_gates_program;;
   let qubits := take (num_input_qubits self) (QAECircuit.qubits self) in
   let thetas := take (num_input_qubits self) (QAECircuit.thetas self) in
   axis ← pure (getitem (axes self) 0);
   block ← pure (build_rotation_block axis qubits thetas);
   iadd_program block;;
   controlled_blocks self qubits (seq 0 (num_input_qubits self));;
   axis ← pure (getitem (axes self) (num_input_qubits self + 1));
   let start_theta :=
     num_input_qubits self + (num_input_qubits self - 1) * num_input_qubits self in
   let end_theta := start_theta + num_input_qubits self in
   let thetas := slice (QAECircuit.thetas self) start_theta end_theta in
   block ← pure (build_rotation_block axis qubits thetas);
   iadd_program block;;
   encode ← get_program;
   decode ← pure (dagger_and_flip encode (QAECircuit.qubits self));
   mret (add encode decode)) self.

End QAECircuit.

(** * Definitions for the verification *)

Import QAECircuit.

(** ** The gate registry and the position-reversal mapping *)

(** The axes of the docstring of [__init__]: 'X', 'Y' or 'Z'. *)
Definition valid_axis (a : string) : Prop :=
  a = "X"%string ∨ a = "Y"%string ∨ a = "Z"%string.

(** The names under which [gates_dict] re-creates an instruction of the
    same name. *)
Definition rotation_names : list string := ["RX"; "RY"; "RZ"; "CRX"; "CRY"]%string.

(** The mapping in the words of the specification: [M[Q[k]] = Q[len-1-k]]
    for every position [k] of the ordering [Q]. *)
Definition position_reversal (Q : list nat) (q : nat) : option nat :=
  '(k, _) ← list_find (λ x, x = q) Q; Q !! (length Q - 1 - k).

(** What the specification says the transform makes of one instruction:
    the same gate type, every angle negated, every qubit remapped through
    the position-reversal mapping, in the same order. *)
Definition dagger_flip_instruction (Q : list nat) (g : Gate) : option Gate :=
  qs ← mapM (position_reversal Q) (pyquil.qubits g);
  Some (pyquil.mkGate (pyquil.name g) (map Z.opp (pyquil.params g)) qs).

(** A lookup that found nothing raises KeyError. *)
Definition or_KeyError {A} (o : option A) : result A :=
  match o with
  | Some a => Ok a
  | None => Raise KeyError
  end.

(** The names of the gates of pyquil in the registry. *)
Definition standard_names : list string := ["RX"; "RY"; "RZ"]%string.

(** An instruction with the operands of its gate type, as far as the
    constructors of the registry look at them: a gate of pyquil has one
    angle and one qubit. *)
Definition arity_ok (g : Gate) : Prop :=
  pyquil.name g ∈ standard_names →
  length (pyquil.params g) = 1 ∧ length (pyquil.qubits g) = 1.

(** An instruction that [dagger_and_flip] can invert on the ordering [Q]. *)
Definition rotation_on (Q : list nat) (g : Gate) : Prop :=
  pyquil.name g ∈ rotation_names ∧ Forall (λ q, q ∈ Q) (pyquil.qubits g) ∧ arity_ok g.

(** ** build_circuit, block by block *)

(** The call that [build_circuit] makes for block [b]: block [0] is the
    initial rotation block, blocks [1 .. n] are the controlled blocks (of
    loop index [b - 1]) and block [n + 1] is the final rotation block. *)
Definition block_call (self : t) (b : nat) : result Program :=
  let n := num_input_qubits self in
  let qubits := take n (qubits self) in
  if decide (b = 0) then
    axis ← getitem (axes self) 0;
    build_rotation_block axis qubits (take n (thetas self))
  else if decide (b ≤ n) then
    let i := b - 1 in
    axis ← getitem (axes self) (i + 1);
    control_qubit ← getitem qubits i;
    let start_theta := n + (n - 1) * i in
    build_controlled_rotation_block axis qubits
      (slice (thetas self) start_theta (start_theta + (n - 1))) control_qubit
  else
    axis ← getitem (axes self) (n + 1);
    let start_theta := n + (n - 1) * n in
    build_rotation_block axis qubits (slice (thetas self) start_theta (start_theta + n)).

(** Building the listed blocks one after the other, each appended to
    [self.program] as soon as it is built. *)
Fixpoint run_blocks (self : t) (bs : list nat) : method unit :=
  match bs with
  | [] => mret ()
  | b :: rest =>
      block ← pure (block_call self b);
      iadd_program block;;
      run_blocks self rest
  end.

(** The last line of [build_circuit]. *)
Definition finish (self : t) : method Program :=
  encode ← get_program;
  decode ← pure (dagger_and_flip encode (qubits self));
  mret (pyquil.add encode decode).

(** Unfolding the operations of the monad [method]. *)
Ltac unfold_method :=
  unfold mbind, method_bind, mret, method_ret, pure, iadd_program, get_program; simpl.

(** The number of angles a configuration with [n] input qubits needs. *)
Definition total_thetas (n : nat) : nat := 2 * n + n * (n - 1).

(** The number of instructions of block [b], and the position of its
    first angle in [thetas]. *)
Definition block_size (n b : nat) : nat := if decide (1 ≤ b ≤ n) then n - 1 else n.

Definition block_start (n b : nat) : nat :=
  if decide (b = 0) then 0 else n + (n - 1) * (b - 1).

(** What a block that was built looks like. *)
Definition block_result (Q : list nat) (size : nat) (P : Program) : Prop :=
  pyquil.defined_gates P = [] ∧
  length (pyquil.instructions P) = size ∧
  Forall (rotation_on Q) (pyquil.instructions P).

(** ** Configurations *)

(** The invariants the specification asks of a configuration, but for the
    length of [thetas].  The ordering holds the [n] input qubits, "the first
    [n] qubits of the ordering": it does whenever there are no more latent
    qubits than qubits. *)
Record well_formed (self : t) : Prop := {
  wf_input :
    num_input_qubits self = (num_qubits self + num_latent_qubits self) `div` 2;
  wf_input_qubits : num_input_qubits self ≤ length (qubits self);
  wf_axes_length : length (axes self) = num_input_qubits self + 2;
  wf_axes : Forall valid_axis (axes self);
  wf_qubits_length : num_qubits self ≤ length (qubits self);
  wf_qubits_NoDup : NoDup (qubits self)
}.

(** A valid configuration. *)
Definition valid (self : t) : Prop :=
  well_formed self ∧ length (thetas self) = total_thetas (num_input_qubits self).

(** The two objects hold the same configuration. *)
Definition same_configuration (s s' : t) : Prop :=
  num_qubits s' = num_qubits s
  ∧ num_latent_qubits s' = num_latent_qubits s
  ∧ num_input_qubits s' = num_input_qubits s
  ∧ QAECircuit.qubits s' = QAECircuit.qubits s
  ∧ QAECircuit.axes s' = QAECircuit.axes s
  ∧ QAECircuit.thetas s' = QAECircuit.thetas s.

(** [s'] holds the configuration of [s] and a program that extends the one
    of [s]. *)
Definition extends (s s' : t) : Prop :=
  same_configuration s s'
  ∧ pyquil.defined_gates (program s) `prefix_of` pyquil.defined_gates (program s')
  ∧ pyquil.instructions (program s) `prefix_of` pyquil.instructions (program s').

(** ** Closed forms of the registry *)

#[global] Instance valid_axis_dec a : Decision (valid_axis a).
Proof. unfold valid_axis. apply _. Defined.

(** The name of the instructions that the registry's gate for an axis and a
    number of qubits makes. *)
Definition gate_name (axis : string) (num_qubits : nat) : string :=
  if decide (2 = num_qubits) then
    if decide (axis = "Z"%string) then "CRX"%string else ("C" +:+ "R" +:+ axis)%string
  else ("R" +:+ axis)%string.

(** The keys of [gates_dict], and the name of the instructions that the
    entry of a key makes. *)
Definition registry_names : list string := ["RX"; "CRX"; "RY"; "CRY"; "RZ"; "CRZ"]%string.

Definition emitted_name (nm : string) : string :=
  if decide (nm = "CRZ"%string) then "CRX"%string else nm.

(** ** The angles and the qubits of the blocks *)

(** The qubit lists of a controlled block: the control with each other
    qubit, in the order of the list. *)
Definition controlled_pairs (qs : list nat) (c : nat) : list (list nat) :=
  (λ t, [c; t]) <$> filter (λ q, q ≠ c) qs.

(** The qubit lists of block [b] on the input qubits [qs]. *)
Definition block_qubits (qs : list nat) (n b : nat) : list (list nat) :=
  if decide (1 ≤ b ≤ n) then controlled_pairs qs (qs !!! (b - 1)) else (λ q, [q]) <$> qs.

(** The angles of block [b]. *)
Definition block_thetas (ths : list Z) (n b : nat) : list Z :=
  slice ths (block_start n b) (block_start n b + block_size n b).

(** The names of the instructions of block [b]: as many as the block has
    instructions, all the name of the gate of the axis [axes[b]], for two
    qubits in a controlled block and for one qubit otherwise. *)
Definition block_names (axes : list string) (n b : nat) : list string :=
  replicate (block_size n b)
    (gate_name (axes !!! b) (if decide (1 ≤ b ≤ n) then 2 else 1)).

(** ** Example configurations *)

(** The configuration of the scenario of the specification: four qubits, no
    latent qubit, two input qubits, six angles. *)
Definition scenario : t := init 4 0 [10; 11; 12; 13; 14; 15]%Z None None.

(** The configuration of the scenario with the last angle missing. *)
Definition scenario_short : t := init 4 0 [10; 11; 12; 13; 14]%Z None None.

(** The scenario with an unknown axis for the second controlled block. *)
Definition scenario_axis : t :=
  init 4 0 [10; 11; 12; 13; 14; 15]%Z (Some ["X"; "Y"; "W"; "X"]%string) None.

(** * Verification *)

(** ** Lists, slices and dictionaries *)

Lemma getitem_Some {A} (l : list A) i a : l !! i = Some a → getitem l i = Ok a.
Proof. unfold getitem. by intros ->. Qed.

Lemma getitem_lt {A} (l : list A) i : i < length l → ∃ a, l !! i = Some a ∧ getitem l i = Ok a.
Proof.
  intros Hi. destruct (lookup_lt_is_Some_2 l i Hi) as [a Ha].
  exists a. split; [done | by apply getitem_Some].
Qed.

Lemma getitem_ge {A} (l : list A) i : length l ≤ i → getitem l i = Raise IndexError.
Proof. intros Hi. unfold getitem. by rewrite lookup_ge_None_2. Qed.

Lemma length_slice {A} (l : list A) a b :
  length (slice l a b) = (b - a) `min` (length l - a).
Proof. unfold slice. by rewrite length_take, length_drop. Qed.

Lemma dict_snoc `{Countable K} {V} (pairs : list (K * V)) kv :
  dict (pairs ++ [kv]) = <[kv.1 := kv.2]> (dict pairs).
Proof. unfold dict. by rewrite foldl_snoc. Qed.

(** The keys of [dict pairs] are the first components of [pairs]. *)
Lemma dict_lookup_None `{Countable K} {V} (pairs : list (K * V)) k :
  dict pairs !! k = None ↔ k ∉ pairs.*1.
Proof.
  induction pairs as [|kv pairs IH] using rev_ind.
  - split; [intros _; apply not_elem_of_nil | done].
  - rewrite dict_snoc, fmap_app, lookup_insert_None, IH, not_elem_of_app.
    simpl. rewrite not_elem_of_cons. split.
    + intros [? ?]. split_and!; [done | congruence | apply not_elem_of_nil].
    + intros (? & ? & _). split; [done | congruence].
Qed.

(** Without a repeated key every pair is found under its key. *)
Lemma dict_lookup_NoDup `{Countable K} {V} (pairs : list (K * V)) k v :
  NoDup pairs.*1 → (k, v) ∈ pairs → dict pairs !! k = Some v.
Proof.
  induction pairs as [|kv pairs IH] using rev_ind; intros Hnd Hin.
  - by apply elem_of_nil in Hin.
  - rewrite dict_snoc. rewrite fmap_app in Hnd.
    apply NoDup_app in Hnd as (Hnd & Hdisj & _).
    apply elem_of_app in Hin as [Hin | Hin].
    + rewrite lookup_insert_ne; [by apply IH|].
      intros Heq. apply (Hdisj k).
      * apply list_elem_of_fmap. by exists (k, v).
      * simpl. rewrite Heq. apply list_elem_of_here.
    + apply list_elem_of_singleton in Hin as <-. simpl. apply lookup_insert_eq.
Qed.

(** ** The position-reversal mapping *)

Lemma position_reversal_lookup (Q : list nat) k q :
  NoDup Q → Q !! k = Some q → position_reversal Q q = Q !! (length Q - 1 - k).
Proof.
  intros Hnd Hk. unfold position_reversal.
  destruct (list_find (λ x, x = q) Q) as [[j x]|] eqn:Hfind; simpl.
  - apply list_find_Some in Hfind as (Hj & -> & _).
    by rewrite (NoDup_lookup Q j k q Hnd Hj Hk).
  - apply list_find_None in Hfind.
    rewrite Forall_lookup in Hfind. by destruct (Hfind k q Hk).
Qed.

Lemma position_reversal_None (Q : list nat) q :
  q ∉ Q → position_reversal Q q = None.
Proof.
  intros Hq. unfold position_reversal.
  destruct (list_find (λ x, x = q) Q) as [[j x]|] eqn:Hfind; [|done].
  apply list_find_Some in Hfind as (Hj & -> & _).
  destruct Hq. by eapply list_elem_of_lookup_2.
Qed.

(** The dictionary [dict(zip(qubits, reversed(qubits)))] has exactly the
    qubits of the ordering as keys. *)
Lemma qubits_reversed_None (Q : list nat) q :
  dict (zip Q (reverse Q)) !! q = None ↔ q ∉ Q.
Proof.
  rewrite dict_lookup_None, fst_zip; [done|]. by rewrite length_reverse.
Qed.

(** On an ordering without duplicates the dictionary of the code is the
    position-reversal mapping of the specification. *)
Lemma qubits_reversed_spec (Q : list nat) q :
  NoDup Q → dict (zip Q (reverse Q)) !! q = position_reversal Q q.
Proof.
  intros Hnd. destruct (decide (q ∈ Q)) as [Hin | Hnin].
  - apply list_elem_of_lookup in Hin as [k Hk].
    rewrite (position_reversal_lookup Q k q Hnd Hk).
    pose proof (lookup_lt_Some _ _ _ Hk) as Hlt.
    destruct (lookup_lt_is_Some_2 Q (length Q - 1 - k)) as [q' Hq']; [lia|].
    rewrite Hq'. apply dict_lookup_NoDup.
    + rewrite fst_zip; [done|]. by rewrite length_reverse.
    + apply list_elem_of_lookup. exists k. apply lookup_zip_Some. split; [done|].
      rewrite reverse_lookup by done.
      by replace (length Q - S k) with (length Q - 1 - k) by lia.
  - rewrite position_reversal_None by done. by apply qubits_reversed_None.
Qed.

(** The mapping is its own inverse. *)
Lemma position_reversal_involutive (Q : list nat) q q' :
  NoDup Q → position_reversal Q q = Some q' → position_reversal Q q' = Some q.
Proof.
  intros Hnd Hq. destruct (decide (q ∈ Q)) as [Hin | Hnin].
  - apply list_elem_of_lookup in Hin as [k Hk].
    pose proof (lookup_lt_Some _ _ _ Hk) as Hlt.
    rewrite (position_reversal_lookup Q k q Hnd Hk) in Hq.
    rewrite (position_reversal_lookup Q _ q' Hnd Hq).
    by replace (length Q - 1 - (length Q - 1 - k)) with k by lia.
  - by rewrite position_reversal_None in Hq.
Qed.

(** ** The gate registry *)

(** A call of a constructor of pyquil, and one of a gate definition. *)
Lemma standard_gate_call nm ps qs :
  pyquil.standard_gate nm ps qs =
    if decide (length ps = 1 ∧ length qs = 1) then Ok (pyquil.mkGate nm ps qs)
    else Raise ValueError.
Proof. done. Qed.

Lemma standard_names_rotation nm : nm ∈ standard_names → nm ∈ rotation_names.
Proof. unfold standard_names, rotation_names. rewrite !elem_of_cons. tauto. Qed.

Lemma arity_ok_defined nm ps qs :
  nm ∉ standard_names → arity_ok (pyquil.mkGate nm ps qs).
Proof. intros Hnm Hin. by destruct Hnm. Qed.

Lemma arity_ok_one nm th q : arity_ok (pyquil.mkGate nm [th] [q]).
Proof. by intros _. Qed.

(** The entry of a name: the gate of pyquil of that name, or the
    constructor of a gate definition, that of CRX under the key CRZ. *)
Lemma gates_dict_lookup nm c :
  gates_dict !! nm = Some c →
  c = if decide (nm ∈ standard_names) then pyquil.standard_gate nm
      else λ ps qs, Ok (pyquil.mkGate (emitted_name nm) ps qs).
Proof.
  unfold gates_dict. rewrite !lookup_insert_Some, lookup_empty.
  intros [[<- <-]|[_ [[<- <-]|[_ [[<- <-]|[_ [[<- <-]|[_ [[<- <-]|[_ [[<- <-]|[_ [=]]]]]]]]]]]]];
    reflexivity.
Qed.

(** The call that [dagger_and_flip] makes for an instruction [nm ps qs]
    whose name is in the registry. *)
Lemma gates_dict_call nm c ps qs :
  gates_dict !! nm = Some c →
  c ps qs =
    if decide (arity_ok (pyquil.mkGate nm ps qs))
    then Ok (pyquil.mkGate (emitted_name nm) ps qs) else Raise ValueError.
Proof.
  intros ->%gates_dict_lookup. unfold arity_ok. simpl.
  destruct (decide (nm ∈ standard_names)) as [Hnm | Hnm].
  - rewrite standard_gate_call.
    assert (emitted_name nm = nm) as ->.
    { unfold emitted_name. rewrite decide_False; [done|]. intros ->.
      revert Hnm. unfold standard_names. rewrite !elem_of_cons, elem_of_nil.
      by intros [? | [? | [? | []]]]. }
    destruct (decide (length ps = 1 ∧ length qs = 1)) as [Har | Har].
    + by rewrite decide_True by done.
    + rewrite decide_False; [done|]. intros H. by apply Har, H.
  - by rewrite decide_True by done.
Qed.

Lemma gates_dict_rotation nm :
  nm ∈ rotation_names → ∃ c, gates_dict !! nm = Some c ∧ emitted_name nm = nm.
Proof.
  unfold rotation_names. rewrite !elem_of_cons, elem_of_nil.
  intros [-> | [-> | [-> | [-> | [-> | []]]]]]; eexists; split; reflexivity.
Qed.

Lemma gate_from_axis_valid_1 a :
  valid_axis a →
  ∃ nm, nm ∈ standard_names ∧ gate_from_axis a 1 = Ok (pyquil.standard_gate nm).
Proof.
  intros [-> | [-> | ->]]; unfold standard_names;
    [ exists "RX"%string | exists "RY"%string | exists "RZ"%string ];
    (split; [by rewrite !elem_of_cons; auto | reflexivity]).
Qed.

Lemma gate_from_axis_valid_2 a :
  valid_axis a →
  ∃ nm, nm ∈ rotation_names ∧ (nm ∉ standard_names) ∧
    gate_from_axis a 2 = Ok (λ ps qs, Ok (pyquil.mkGate nm ps qs)).
Proof.
  intros [-> | [-> | ->]]; unfold rotation_names, standard_names;
    [ exists "CRX"%string | exists "CRY"%string | exists "CRX"%string ];
    (split_and!; [by rewrite !elem_of_cons; auto 6 | | reflexivity]);
    rewrite !elem_of_cons, elem_of_nil; by intros [? | [? | [? | []]]].
Qed.

Lemma gate_from_axis_invalid a k :
  ¬ valid_axis a → gate_from_axis a k = Raise KeyError.
Proof.
  intros Ha. unfold gate_from_axis, dict_getitem, gates_dict.
  assert (a ≠ "X"%string ∧ a ≠ "Y"%string ∧ a ≠ "Z"%string) as (HX & HY & HZ).
  { unfold valid_axis in Ha. split_and!; intros ->; apply Ha; auto. }
  case_decide; simpl;
    rewrite !lookup_insert_ne by (by cbv [String.append]; intros ?; simplify_eq);
    by rewrite lookup_empty.
Qed.

(** ** The block builders *)

(** The loops are stated for a gate whose calls are accepted and make an
    instruction of the name [nm]: a gate of pyquil called with one angle
    and one qubit, the constructor of a gate definition called with
    anything. *)
Lemma rotation_loop_ok nm thetas qs : ∀ i p,
  i + length qs ≤ length thetas →
  rotation_loop (pyquil.standard_gate nm) thetas i qs p =
    Ok (pyquil.mkProgram (pyquil.defined_gates p)
          (pyquil.instructions p ++
           zip_with (λ th q, pyquil.mkGate nm [th] [q]) (drop i thetas) qs)).
Proof.
  induction qs as [|q qs IH]; intros i p Hlen; simpl in *.
  - rewrite zip_with_nil_r, app_nil_r. by destruct p.
  - destruct (getitem_lt thetas i) as (th & Hth & ->); [lia|]. simpl.
    rewrite IH by lia. simpl.
    by rewrite (drop_S _ _ _ Hth), app_nil_r, <- app_assoc.
Qed.

Lemma rotation_loop_short nm thetas qs : ∀ i p,
  i ≤ length thetas < i + length qs →
  rotation_loop (pyquil.standard_gate nm) thetas i qs p = Raise IndexError.
Proof.
  induction qs as [|q qs IH]; intros i p Hlen; simpl in *; [lia|].
  destruct (decide (i < length thetas)) as [Hi | Hi].
  - destruct (getitem_lt thetas i Hi) as (th & _ & ->). simpl. apply IH. lia.
  - rewrite getitem_ge by lia. done.
Qed.

Lemma controlled_loop_ok nm thetas c qs : ∀ i p,
  i + length (filter (λ q, q ≠ c) qs) ≤ length thetas →
  controlled_loop (λ ps qs, Ok (pyquil.mkGate nm ps qs)) thetas c i qs p =
    Ok (pyquil.mkProgram (pyquil.defined_gates p)
          (pyquil.instructions p ++
           zip_with (λ th q, pyquil.mkGate nm [th] [c; q])
             (drop i thetas) (filter (λ q, q ≠ c) qs))).
Proof.
  induction qs as [|q qs IH]; intros i p Hlen; simpl.
  - rewrite filter_nil, zip_with_nil_r, app_nil_r. by destruct p.
  - rewrite filter_cons in Hlen |- *. case_decide; simpl in *.
    + destruct (getitem_lt thetas i) as (th & Hth & ->); [lia|]. simpl.
      rewrite IH by lia. simpl.
      by rewrite (drop_S _ _ _ Hth), app_nil_r, <- app_assoc.
    + by apply IH.
Qed.

Lemma controlled_loop_short nm thetas c qs : ∀ i p,
  i ≤ length thetas < i + length (filter (λ q, q ≠ c) qs) →
  controlled_loop (λ ps qs, Ok (pyquil.mkGate nm ps qs)) thetas c i qs p = Raise IndexError.
Proof.
  induction qs as [|q qs IH]; intros i p Hlen; simpl.
  { rewrite filter_nil in Hlen. simpl in Hlen. lia. }
  rewrite filter_cons in Hlen. case_decide; simpl in *.
  - destruct (decide (i < length thetas)) as [Hi | Hi].
    + destruct (getitem_lt thetas i Hi) as (th & _ & ->). simpl. apply IH. lia.
    + rewrite getitem_ge by lia. done.
  - by apply IH.
Qed.

(** Without duplicates, all qubits but the control are left. *)
Lemma length_filter_control (qs : list nat) c :
  NoDup qs → c ∈ qs → length (filter (λ q, q ≠ c) qs) = length qs - 1.
Proof.
  induction qs as [|q qs IH]; intros Hnd Hin; [done|].
  apply NoDup_cons in Hnd as [Hq Hnd]. rewrite filter_cons. case_decide; simpl.
  - apply elem_of_cons in Hin as [-> | Hin]; [done|].
    rewrite IH by done. destruct qs; [by apply elem_of_nil in Hin | simpl; lia].
  - assert (q = c) as -> by (destruct (decide (q = c)); [done | contradiction]).
    rewrite Nat.sub_0_r. f_equal. clear IH Hin H Hnd.
    induction qs as [|q qs IH]; [done|].
    apply not_elem_of_cons in Hq as [? ?].
    rewrite filter_cons_True by done. simpl. f_equal. by apply IH.
Qed.

Lemma length_filter_control_le (qs : list nat) c :
  c ∈ qs → length (filter (λ q, q ≠ c) qs) ≤ length qs - 1.
Proof.
  intros Hin. pose proof (length_filter_lt (λ q, q ≠ c) qs c Hin) as Hlt.
  assert (¬ c ≠ c) as Hc by (intros ?; done). specialize (Hlt Hc). lia.
Qed.

Lemma build_rotation_block_ok a qs thetas :
  valid_axis a → length qs ≤ length thetas →
  ∃ nm, nm ∈ rotation_names ∧
    build_rotation_block a qs thetas =
      Ok (pyquil.mkProgram [] (zip_with (λ th q, pyquil.mkGate nm [th] [q]) thetas qs)).
Proof.
  intros Ha Hlen. destruct (gate_from_axis_valid_1 a Ha) as (nm & Hnm & Hg).
  exists nm. split; [by apply standard_names_rotation|].
  unfold build_rotation_block. rewrite Hg. simpl.
  by rewrite rotation_loop_ok by (simpl; lia).
Qed.

Lemma build_rotation_block_short a qs thetas :
  valid_axis a → length thetas < length qs →
  build_rotation_block a qs thetas = Raise IndexError.
Proof.
  intros Ha Hlen. destruct (gate_from_axis_valid_1 a Ha) as (nm & Hnm & Hg).
  unfold build_rotation_block. rewrite Hg. simpl.
  apply rotation_loop_short. lia.
Qed.

Lemma build_controlled_rotation_block_ok a qs thetas c :
  valid_axis a → length (filter (λ q, q ≠ c) qs) ≤ length thetas →
  ∃ nm, nm ∈ rotation_names ∧ (nm ∉ standard_names) ∧
    build_controlled_rotation_block a qs thetas c =
      Ok (pyquil.mkProgram []
            (zip_with (λ th q, pyquil.mkGate nm [th] [c; q]) thetas (filter (λ q, q ≠ c) qs))).
Proof.
  intros Ha Hlen. destruct (gate_from_axis_valid_2 a Ha) as (nm & Hnm & Hstd & Hg).
  exists nm. split_and!; [done..|]. unfold build_controlled_rotation_block. rewrite Hg. simpl.
  by rewrite controlled_loop_ok by (simpl; lia).
Qed.

Lemma build_controlled_rotation_block_short a qs thetas c :
  valid_axis a → length thetas < length (filter (λ q, q ≠ c) qs) →
  build_controlled_rotation_block a qs thetas c = Raise IndexError.
Proof.
  intros Ha Hlen. destruct (gate_from_axis_valid_2 a Ha) as (nm & Hnm & _ & Hg).
  unfold build_controlled_rotation_block. rewrite Hg. simpl.
  apply controlled_loop_short. lia.
Qed.

(** ** dagger_and_flip *)

Lemma flip_qubits_mapM (M : gmap nat nat) qs :
  flip_qubits M qs = or_KeyError (mapM (λ q, M !! q) qs).
Proof.
  induction qs as [|q qs IH]; [done|]. simpl. unfold dict_getitem.
  destruct (M !! q); simpl; [|done]. rewrite IH. by destruct (mapM _ qs).
Qed.

(** What [dagger_and_flip] does with one instruction: the qubits are
    looked up, then the name, and then the constructor is called. *)
Lemma flip_gate_unfold (M : gmap nat nat) g :
  flip_gate M g =
    match mapM (λ q, M !! q) (pyquil.qubits g) with
    | None => Raise KeyError
    | Some qs =>
        match gates_dict !! pyquil.name g with
        | None => Raise KeyError
        | Some _ =>
            if decide (arity_ok g)
            then Ok (pyquil.mkGate (emitted_name (pyquil.name g))
                       (map (λ x, (-1 * x)%Z) (pyquil.params g)) qs)
            else Raise ValueError
        end
    end.
Proof.
  unfold flip_gate. rewrite flip_qubits_mapM.
  destruct (mapM _ _) as [qs|] eqn:Hqs; simpl; [|done].
  unfold dict_getitem. destruct (gates_dict !! _) as [c|] eqn:Hc; simpl; [|done].
  rewrite (gates_dict_call _ _ _ _ Hc). apply length_mapM in Hqs.
  unfold arity_ok. simpl. rewrite length_map, <- Hqs.
  by destruct g.
Qed.

(** On an instruction with the operands of its gate type, only a lookup
    can fail. *)
Lemma flip_gate_raise (M : gmap nat nat) g e :
  arity_ok g → flip_gate M g = Raise e → e = KeyError.
Proof.
  intros Har. rewrite flip_gate_unfold.
  destruct (mapM _ _); [|congruence].
  destruct (gates_dict !! _); [|congruence].
  rewrite decide_True by done. congruence.
Qed.

Lemma flip_gate_absent (M : gmap nat nat) g q :
  q ∈ pyquil.qubits g → M !! q = None → flip_gate M g = Raise KeyError.
Proof.
  intros Hq HM. unfold flip_gate. rewrite flip_qubits_mapM.
  rewrite (mapM_None_2 (λ q, M !! q)); [done|].
  apply Exists_exists. by exists q.
Qed.

Lemma flip_gate_spec (Q : list nat) g :
  NoDup Q → pyquil.name g ∈ rotation_names → arity_ok g →
  flip_gate (dict (zip Q (reverse Q))) g = or_KeyError (dagger_flip_instruction Q g).
Proof.
  intros Hnd Hnm Har. rewrite flip_gate_unfold. unfold dagger_flip_instruction.
  rewrite (mapM_ext _ (position_reversal Q)) by (intros; by apply qubits_reversed_spec).
  destruct (mapM _ _) as [qs|]; simpl; [|done].
  destruct (gates_dict_rotation _ Hnm) as (c & -> & ->).
  rewrite decide_True by done.
  by rewrite (map_ext (λ x, (-1 * x)%Z) Z.opp) by (intros; lia).
Qed.

Lemma flip_loop_mapM (M : gmap nat nat) (f : Gate → option Gate) gs : ∀ p,
  (∀ g, g ∈ gs → flip_gate M g = or_KeyError (f g)) →
  flip_loop M gs p =
    or_KeyError (gs' ← mapM f gs;
                 Some (pyquil.mkProgram (pyquil.defined_gates p) (pyquil.instructions p ++ gs'))).
Proof.
  induction gs as [|g gs IH]; intros p Hf; simpl.
  - rewrite app_nil_r. by destruct p.
  - rewrite Hf by apply list_elem_of_here. destruct (f g) as [g'|]; simpl; [|done].
    rewrite IH by (intros; apply Hf; by apply list_elem_of_further).
    destruct (mapM f gs); simpl; [|done]. by rewrite <- app_assoc.
Qed.

Lemma flip_loop_fail (M : gmap nat nat) gs : ∀ p,
  Forall arity_ok gs →
  Exists (λ g, flip_gate M g = Raise KeyError) gs → flip_loop M gs p = Raise KeyError.
Proof.
  induction gs as [|g gs IH]; intros p Har Hex; [by apply Exists_nil in Hex|].
  apply Forall_cons in Har as [Hg' Har].
  simpl. destruct (flip_gate M g) as [g'|e] eqn:Hg; simpl.
  - apply IH; [done|]. apply Exists_cons in Hex as [Hex | Hex]; [congruence | done].
  - by rewrite (flip_gate_raise _ _ _ Hg' Hg).
Qed.

(** On an ordering without duplicates and a program of rotation
    instructions, [dagger_and_flip] is the transform of the specification
    applied to the instructions in reverse order. *)
Lemma dagger_and_flip_spec (P : Program) (Q : list nat) :
  NoDup Q →
  Forall (λ g, pyquil.name g ∈ rotation_names ∧ arity_ok g) (pyquil.instructions P) →
  dagger_and_flip P Q =
    or_KeyError (gs ← mapM (dagger_flip_instruction Q) (reverse (pyquil.instructions P));
                 Some (pyquil.mkProgram [] gs)).
Proof.
  intros Hnd Hnames. unfold dagger_and_flip.
  rewrite (flip_loop_mapM _ (dagger_flip_instruction Q)); [done|].
  intros g Hg. rewrite Forall_forall in Hnames.
  destruct (Hnames g) as [Hnm Har]; [by apply elem_of_reverse|].
  by apply flip_gate_spec.
Qed.

(** ** build_circuit, block by block *)

Lemma run_blocks_app self bs1 bs2 s :
  run_blocks self (bs1 ++ bs2) s = (run_blocks self bs1;; run_blocks self bs2) s.
Proof.
  revert s. induction bs1 as [|b bs1 IH]; intros s; simpl.
  - done.
  - unfold_method. destruct (block_call self b); [|done].
    rewrite IH. done.
Qed.

Lemma controlled_blocks_run self m : ∀ k s,
  k + m ≤ num_input_qubits self →
  controlled_blocks self (take (num_input_qubits self) (qubits self)) (seq k m) s =
    run_blocks self (seq (S k) m) s.
Proof.
  induction m as [|m IH]; intros k s Hk; simpl; [done|].
  unfold_method. unfold block_call.
  rewrite decide_False by lia. rewrite decide_True by lia. simpl.
  rewrite Nat.sub_0_r.
  destruct (getitem (axes self) (k + 1)); simpl; [|done].
  destruct (getitem _ k); simpl; [|done].
  destruct (build_controlled_rotation_block _ _ _ _); simpl; [|done].
  apply IH. lia.
Qed.

Lemma build_circuit_blocks self :
  build_circuit self =
    (iadd_program def_gates_program;;
     run_blocks self (seq 0 (num_input_qubits self + 2));;
     finish self) self.
Proof.
  replace (num_input_qubits self + 2) with (1 + (num_input_qubits self + 1)) by lia.
  rewrite seq_app. simpl seq at 1. unfold build_circuit, finish.
  unfold_method. unfold block_call at 1. simpl.
  destruct (getitem (axes self) 0); simpl; [|done].
  destruct (build_rotation_block _ _ _); simpl; [|done].
  unfold_method. rewrite seq_app, run_blocks_app. unfold_method.
  rewrite controlled_blocks_run by lia.
  destruct (run_blocks self (seq 1 _) _) as [[[]|e] s1]; [|done].
  unfold block_call. simpl. rewrite decide_False by lia. 
  destruct (getitem (axes self) _); simpl; [|done].
  destruct (build_rotation_block _ _ _); simpl; [|done].
  done.
Qed.

(** *** Valid configurations *)

Lemma well_formed_input_le self :
  well_formed self → num_input_qubits self ≤ length (qubits self).
Proof. apply wf_input_qubits. Qed.

(** The input qubits are in the ordering when the latent qubits are among
    the qubits. *)
Lemma latent_input_qubits self :
  num_input_qubits self = (num_qubits self + num_latent_qubits self) `div` 2 →
  num_latent_qubits self ≤ num_qubits self →
  num_qubits self ≤ length (qubits self) →
  num_input_qubits self ≤ length (qubits self).
Proof.
  intros Hn HL Hlen. rewrite Hn.
  etrans; [|exact Hlen]. apply Nat.Div0.div_le_upper_bound. lia.
Qed.

Lemma build_rotation_block_result a qs thetas :
  valid_axis a → length qs ≤ length thetas →
  ∃ P, build_rotation_block a qs thetas = Ok P ∧ block_result qs (length qs) P.
Proof.
  intros Ha Hlen.
  destruct (build_rotation_block_ok a qs thetas Ha Hlen) as (nm & Hnm & ->).
  eexists. split; [done|]. split_and!; simpl; [done | |].
  - rewrite length_zip_with. lia.
  - apply Forall_lookup. intros i g (th & q & -> & _ & Hq)%lookup_zip_with_Some.
    split_and!; simpl; [done | | apply arity_ok_one].
    apply Forall_singleton. by eapply list_elem_of_lookup_2.
Qed.

Lemma build_controlled_rotation_block_result a (qs : list nat) thetas c :
  valid_axis a → NoDup qs → c ∈ qs → length qs - 1 ≤ length thetas →
  ∃ P, build_controlled_rotation_block a qs thetas c = Ok P
       ∧ block_result qs (length qs - 1) P.
Proof.
  intros Ha Hnd Hc Hlen.
  pose proof (length_filter_control qs c Hnd Hc) as Hf.
  destruct (build_controlled_rotation_block_ok a qs thetas c Ha)
    as (nm & Hnm & Hstd & ->); [lia|].
  eexists. split; [done|]. split_and!; simpl; [done | |].
  - rewrite length_zip_with. lia.
  - apply Forall_lookup. intros i g (th & q & -> & _ & Hq)%lookup_zip_with_Some.
    apply list_elem_of_lookup_2, list_elem_of_filter in Hq as [_ Hq].
    split_and!; simpl; [done | by repeat constructor | by apply arity_ok_defined].
Qed.

(** *** The single blocks of build_circuit *)

Lemma rotation_loop_raise nm thetas qs e : ∀ i p,
  rotation_loop (pyquil.standard_gate nm) thetas i qs p = Raise e → e = IndexError.
Proof.
  induction qs as [|q qs IH]; intros i p; simpl; [done|].
  unfold getitem. destruct (thetas !! i); simpl; [apply IH | congruence].
Qed.

Lemma controlled_loop_raise nm thetas c qs e : ∀ i p,
  controlled_loop (λ ps qs, Ok (pyquil.mkGate nm ps qs)) thetas c i qs p = Raise e →
  e = IndexError.
Proof.
  induction qs as [|q qs IH]; intros i p; simpl; [done|].
  case_decide; [|apply IH].
  unfold getitem. destruct (thetas !! i); simpl; [apply IH | congruence].
Qed.

Section blocks.
Variable self : t.
Let n := num_input_qubits self.
Hypothesis Hinput : n ≤ length (qubits self).
Hypothesis Hnodup : NoDup (qubits self).

Lemma length_input_qubits : length (take n (qubits self)) = n.
Proof. by apply length_take_le. Qed.

Lemma NoDup_input_qubits : NoDup (take n (qubits self)).
Proof. eapply sublist_NoDup; [exact Hnodup | apply sublist_take]. Qed.

Lemma block_call_result b a :
  b ≤ n + 1 → axes self !! b = Some a → valid_axis a →
  block_start n b + block_size n b ≤ length (thetas self) →
  ∃ P, block_call self b = Ok P
       ∧ block_result (take n (qubits self)) (block_size n b) P.
Proof.
  intros Hb Ha Hv. unfold block_call, block_start, block_size. fold n.
  pose proof length_input_qubits as Hlen. pose proof NoDup_input_qubits as Hnd.
  destruct (decide (b = 0)) as [-> | Hb0].
  - rewrite decide_False by lia. intros Hth.
    rewrite (getitem_Some _ _ _ Ha). simpl.
    destruct (build_rotation_block_result a (take n (qubits self))
                (take n (thetas self)) Hv) as (P & HP & Hres).
    { rewrite Hlen, length_take. lia. }
    rewrite Hlen in Hres. eauto.
  - destruct (decide (b ≤ n)) as [Hbn | Hbn].
    + rewrite decide_True by lia. intros Hth.
      replace (b - 1 + 1) with b by lia.
      rewrite (getitem_Some _ _ _ Ha). simpl.
      destruct (getitem_lt (take n (qubits self)) (b - 1)) as (c & Hc & ->); [lia|].
      simpl.
      destruct (build_controlled_rotation_block_result a (take n (qubits self))
                  (slice (thetas self) (n + (n - 1) * (b - 1))
                     (n + (n - 1) * (b - 1) + (n - 1))) c Hv Hnd)
        as (P & HP & Hres).
      { by eapply list_elem_of_lookup_2. }
      { rewrite Hlen, length_slice. lia. }
      rewrite Hlen in Hres. eauto.
    + rewrite decide_False by lia. intros Hth.
      assert (b = n + 1) as -> by lia.
      rewrite (getitem_Some _ _ _ Ha). simpl.
      replace (n + 1 - 1) with n in Hth by lia.
      destruct (build_rotation_block_result a (take n (qubits self))
                  (slice (thetas self) (n + (n - 1) * n) (n + (n - 1) * n + n)) Hv)
        as (P & HP & Hres).
      { rewrite Hlen, length_slice. lia. }
      rewrite Hlen in Hres. eauto.
Qed.

Lemma block_call_invalid_axis b a :
  b ≤ n + 1 → axes self !! b = Some a → ¬ valid_axis a →
  block_call self b = Raise KeyError.
Proof.
  intros Hb Ha Hv. unfold block_call. fold n.
  pose proof length_input_qubits as Hlen.
  destruct (decide (b = 0)) as [-> | Hb0].
  - rewrite (getitem_Some _ _ _ Ha). simpl.
    unfold build_rotation_block. by rewrite gate_from_axis_invalid.
  - destruct (decide (b ≤ n)) as [Hbn | Hbn].
    + replace (b - 1 + 1) with b by lia.
      rewrite (getitem_Some _ _ _ Ha). simpl.
      destruct (getitem_lt (take n (qubits self)) (b - 1)) as (c & Hc & ->); [lia|].
      simpl. unfold build_controlled_rotation_block. by rewrite gate_from_axis_invalid.
    + assert (b = n + 1) as -> by lia.
      rewrite (getitem_Some _ _ _ Ha). simpl.
      unfold build_rotation_block. by rewrite gate_from_axis_invalid.
Qed.

(** With a valid axis a block can only fail on its angles. *)
Lemma block_call_raise b a e :
  b ≤ n + 1 → axes self !! b = Some a → valid_axis a →
  block_call self b = Raise e → e = IndexError.
Proof.
  intros Hb Ha Hv. unfold block_call. fold n.
  pose proof length_input_qubits as Hlen.
  destruct (gate_from_axis_valid_1 a Hv) as (nm1 & _ & Hg1).
  destruct (gate_from_axis_valid_2 a Hv) as (nm2 & _ & _ & Hg2).
  destruct (decide (b = 0)) as [-> | Hb0].
  - rewrite (getitem_Some _ _ _ Ha). simpl.
    unfold build_rotation_block. rewrite Hg1. simpl. apply rotation_loop_raise.
  - destruct (decide (b ≤ n)) as [Hbn | Hbn].
    + replace (b - 1 + 1) with b by lia.
      rewrite (getitem_Some _ _ _ Ha). simpl.
      destruct (getitem_lt (take n (qubits self)) (b - 1)) as (c & Hc & ->); [lia|].
      simpl. unfold build_controlled_rotation_block. rewrite Hg2. simpl.
      apply controlled_loop_raise.
    + assert (b = n + 1) as -> by lia.
      rewrite (getitem_Some _ _ _ Ha). simpl.
      unfold build_rotation_block. rewrite Hg1. simpl. apply rotation_loop_raise.
Qed.

(** The final block fails when [thetas] is too short. *)
Lemma block_call_final_short a :
  axes self !! (n + 1) = Some a → valid_axis a →
  length (thetas self) < total_thetas n →
  block_call self (n + 1) = Raise IndexError.
Proof.
  intros Ha Hv Hth. unfold block_call. fold n.
  pose proof length_input_qubits as Hlen.
  assert (1 ≤ n) as Hn by (unfold total_thetas in Hth; destruct n; simpl in *; lia).
  rewrite decide_False by lia. rewrite decide_False by lia.
  rewrite (getitem_Some _ _ _ Ha). simpl.
  apply build_rotation_block_short; [done|].
  rewrite Hlen, length_slice. unfold total_thetas in Hth. lia.
Qed.
End blocks.

(** *** Sequences of blocks *)

Lemma set_program_program s : set_program s (program s) = s.
Proof. by destruct s. Qed.

Lemma run_blocks_ok self bs Ps :
  Forall2 (λ b P, block_call self b = Ok P) bs Ps →
  ∀ s, run_blocks self bs s = (Ok (), set_program s (foldl pyquil.add (program s) Ps)).
Proof.
  induction 1 as [|b P bs Ps Hb _ IH]; intros s; simpl.
  - by rewrite set_program_program.
  - unfold_method. rewrite Hb. by rewrite IH.
Qed.

Lemma run_blocks_raise self bs Ps b e rest s :
  Forall2 (λ b P, block_call self b = Ok P) bs Ps →
  block_call self b = Raise e →
  run_blocks self (bs ++ b :: rest) s =
    (Raise e, set_program s (foldl pyquil.add (program s) Ps)).
Proof.
  intros Hbs Hb. rewrite run_blocks_app. unfold_method.
  rewrite (run_blocks_ok _ _ _ Hbs). unfold_method. by rewrite Hb.
Qed.

Lemma run_blocks_IndexError self bs :
  (∀ b e, b ∈ bs → block_call self b = Raise e → e = IndexError) →
  (∃ b, b ∈ bs ∧ block_call self b = Raise IndexError) →
  ∀ s, (run_blocks self bs s).1 = Raise IndexError.
Proof.
  induction bs as [|b bs IH]; intros Hall (b' & Hin & Hb') s.
  - by apply elem_of_nil in Hin.
  - simpl. unfold_method. destruct (block_call self b) as [P|e] eqn:Hb; simpl.
    + apply IH.
      * intros ? ? ?. apply Hall. by apply list_elem_of_further.
      * apply elem_of_cons in Hin as [-> | Hin]; [congruence | eauto].
    + f_equal. eapply Hall; [apply list_elem_of_here | done].
Qed.

Lemma foldl_add_instructions Ps : ∀ p,
  pyquil.instructions (foldl pyquil.add p Ps) =
    pyquil.instructions p ++ concat (map pyquil.instructions Ps).
Proof.
  induction Ps as [|P Ps IH]; intros p; simpl.
  - by rewrite app_nil_r.
  - rewrite IH. simpl. by rewrite <- app_assoc.
Qed.

Lemma foldl_add_defined_gates Ps : ∀ p,
  Forall (λ P, pyquil.defined_gates P = []) Ps →
  pyquil.defined_gates (foldl pyquil.add p Ps) = pyquil.defined_gates p.
Proof.
  induction Ps as [|P Ps IH]; intros p HPs; simpl; [done|].
  apply Forall_cons in HPs as [HP HPs]. rewrite IH by done. simpl.
  by rewrite HP, app_nil_r.
Qed.

Lemma Forall2_choice {A B} (R : A → B → Prop) (l : list A) :
  (∀ a, a ∈ l → ∃ b, R a b) → ∃ k, Forall2 R l k.
Proof.
  induction l as [|a l IH]; intros HR.
  - by exists [].
  - destruct (HR a) as [b Hb]; [apply list_elem_of_here|].
    destruct IH as [k Hk]; [intros; apply HR; by apply list_elem_of_further|].
    exists (b :: k). by constructor.
Qed.

(** The instructions emitted before block [j] are as many as the angles
    before the first angle of block [j]. *)
Lemma sum_block_size n j :
  j ≤ n + 1 → sum_list (block_size n <$> seq 0 j) = block_start n j.
Proof.
  induction j as [|j IH]; intros Hj; [done|].
  rewrite seq_S, fmap_app, sum_list_with_app, IH by lia. simpl.
  unfold block_start, block_size. repeat case_decide; try lia.
  destruct j as [|j]; [lia|]. simpl. rewrite !Nat.sub_0_r. lia.
Qed.

Lemma sum_block_size_all n :
  sum_list (block_size n <$> seq 0 (n + 2)) = total_thetas n.
Proof.
  replace (n + 2) with (S (n + 1)) by lia.
  rewrite seq_S, fmap_app, sum_list_with_app, sum_block_size by lia. simpl.
  unfold block_start, block_size, total_thetas. repeat case_decide; lia.
Qed.

Lemma blocks_length Q n bs Ps :
  Forall2 (λ b P, block_result Q (block_size n b) P) bs Ps →
  length (concat (map pyquil.instructions Ps)) = sum_list (block_size n <$> bs).
Proof.
  induction 1 as [|b P bs Ps (_ & Hlen & _) _ IH]; [done|].
  simpl. by rewrite length_app, Hlen, IH.
Qed.

Lemma blocks_rotation Q n bs Ps :
  Forall2 (λ b P, block_result Q (block_size n b) P) bs Ps →
  Forall (rotation_on Q) (concat (map pyquil.instructions Ps)).
Proof.
  induction 1 as [|b P bs Ps (_ & _ & Hrot) _ IH]; [constructor|].
  simpl. by apply Forall_app.
Qed.

Lemma blocks_defined_gates Q n bs Ps :
  Forall2 (λ b P, block_result Q (block_size n b) P) bs Ps →
  Forall (λ P, pyquil.defined_gates P = []) Ps.
Proof. induction 1 as [|b P bs Ps (Hd & _ & _) _ IH]; by constructor. Qed.

Lemma block_start_S n b : b ≤ n → block_start n b + block_size n b = block_start n (S b).
Proof.
  intros Hb. unfold block_start, block_size. repeat case_decide; try lia.
  destruct b as [|b]; [lia|]. simpl. rewrite !Nat.sub_0_r. lia.
Qed.

Lemma block_start_mono n b b' : b ≤ b' → block_start n b ≤ block_start n b'.
Proof.
  intros Hb. unfold block_start. repeat case_decide; try lia.
  apply Nat.add_le_mono_l, Nat.mul_le_mono_l. lia.
Qed.

Lemma block_start_final n : block_start n (n + 1) + n = total_thetas n.
Proof.
  unfold block_start, total_thetas. rewrite decide_False by lia.
  replace (n + 1 - 1) with n by lia. lia.
Qed.

Lemma block_end_le n b : b ≤ n + 1 → block_start n b + block_size n b ≤ total_thetas n.
Proof.
  intros Hb. destruct (decide (b ≤ n)) as [Hbn | Hbn].
  - rewrite block_start_S by done. rewrite <- block_start_final.
    etrans; [apply (block_start_mono n (S b) (n + 1)); lia | lia].
  - assert (b = n + 1) as -> by lia. rewrite <- block_start_final.
    unfold block_size. rewrite decide_False by lia. done.
Qed.

Lemma Program_eta (p : Program) :
  p = pyquil.mkProgram (pyquil.defined_gates p) (pyquil.instructions p).
Proof. by destruct p. Qed.

Section prefix.
Variable self : t.
Let n := num_input_qubits self.
Hypothesis Hinput : n ≤ length (qubits self).
Hypothesis Hnodup : NoDup (qubits self).

(** The first [j] blocks are built when their axes are valid and
    [thetas] reaches the end of the last of them. *)
Lemma blocks_built j :
  j ≤ n + 2 →
  (∀ b, b < j → ∃ a, axes self !! b = Some a ∧ valid_axis a) →
  (∀ b, b < j → block_start n b + block_size n b ≤ length (thetas self)) →
  ∃ Ps, Forall2 (λ b P, block_call self b = Ok P) (seq 0 j) Ps
        ∧ Forall2 (λ b P, block_result (take n (qubits self)) (block_size n b) P)
            (seq 0 j) Ps.
Proof.
  intros Hj Hax Hth.
  destruct (Forall2_choice
    (λ b P, block_call self b = Ok P
             ∧ block_result (take n (qubits self)) (block_size n b) P) (seq 0 j))
    as [Ps HPs].
  { intros b [_ Hb]%elem_of_seq. simpl in Hb.
    destruct (Hax b Hb) as (a & Ha & Hv).
    apply (block_call_result self Hinput Hnodup b a); auto. fold n. lia. }
  exists Ps. split; (eapply Forall2_impl; [exact HPs|]); by intros b P [? ?].
Qed.

(** The program left in the object by blocks that were all built. *)
Lemma run_blocks_built bs Ps s :
  Forall2 (λ b P, block_call self b = Ok P) bs Ps →
  Forall2 (λ b P, block_result (take n (qubits self)) (block_size n b) P) bs Ps →
  run_blocks self bs s =
    (Ok (), set_program s
              (pyquil.mkProgram (pyquil.defined_gates (program s))
                 (pyquil.instructions (program s)
                    ++ concat (map pyquil.instructions Ps)))).
Proof.
  intros Hcall Hres. rewrite (run_blocks_ok _ _ _ Hcall). do 2 f_equal.
  rewrite (Program_eta (foldl _ _ _)).
  rewrite foldl_add_instructions, foldl_add_defined_gates; [done|].
  by eapply blocks_defined_gates.
Qed.
End prefix.

Lemma rotation_on_input_qubits Q n g : rotation_on (take n Q) g → rotation_on Q g.
Proof.
  intros (Hnm & Hq & Har). split_and!; [done | | done]. eapply Forall_impl; [exact Hq|].
  intros q (i & Hi & _)%elem_of_take. by eapply list_elem_of_lookup_2.
Qed.

Lemma dagger_flip_instruction_is_Some Q g :
  NoDup Q → rotation_on Q g → is_Some (dagger_flip_instruction Q g).
Proof.
  intros Hnd (_ & Hq & _). unfold dagger_flip_instruction.
  destruct (mapM_is_Some_2 (position_reversal Q) (pyquil.qubits g)) as [qs ->]; [|done].
  eapply Forall_impl; [exact Hq|]. intros q [k Hk]%list_elem_of_lookup. simpl.
  rewrite (position_reversal_lookup Q k q Hnd Hk).
  apply lookup_lt_is_Some_2. pose proof (lookup_lt_Some _ _ _ Hk). lia.
Qed.

(** [dagger_and_flip] succeeds on rotation instructions over the ordering. *)
Lemma dagger_and_flip_rotation (P : Program) (Q : list nat) :
  NoDup Q → Forall (rotation_on Q) (pyquil.instructions P) →
  ∃ D, mapM (dagger_flip_instruction Q) (reverse (pyquil.instructions P)) = Some D
       ∧ dagger_and_flip P Q = Ok (pyquil.mkProgram [] D).
Proof.
  intros Hnd Hrot.
  destruct (mapM_is_Some_2 (dagger_flip_instruction Q) (reverse (pyquil.instructions P)))
    as [D HD].
  { apply Forall_reverse. eapply Forall_impl; [exact Hrot|].
    intros g Hg. by apply dagger_flip_instruction_is_Some. }
  exists D. split; [done|]. rewrite dagger_and_flip_spec, HD; [done | done |].
  eapply Forall_impl; [exact Hrot|]. by intros g (? & _ & ?).
Qed.

(** *** build_circuit on a valid configuration *)

Lemma well_formed_axes_lookup self b :
  well_formed self → b < num_input_qubits self + 2 →
  ∃ a, axes self !! b = Some a ∧ valid_axis a.
Proof.
  intros Hv Hb. destruct (lookup_lt_is_Some_2 (axes self) b) as [a Ha].
  { rewrite (wf_axes_length _ Hv). lia. }
  exists a. split; [done|].
  pose proof (wf_axes _ Hv) as Hax. rewrite Forall_lookup in Hax. by eapply Hax.
Qed.

(** On a valid configuration [build_circuit] appends the gate definitions
    and the encode stage [E] to the program of the object, and returns that
    program followed by its dagger-and-flip [D]. *)
Lemma build_circuit_valid self :
  valid self →
  Forall (rotation_on (qubits self)) (pyquil.instructions (program self)) →
  ∃ E D,
    length E = total_thetas (num_input_qubits self)
    ∧ Forall (rotation_on (qubits self)) E
    ∧ mapM (dagger_flip_instruction (qubits self))
        (reverse (pyquil.instructions (program self) ++ E)) = Some D
    ∧ build_circuit self =
        (Ok (pyquil.mkProgram
               (pyquil.defined_gates (program self) ++ [crx_def; cry_def; crz_def])
               ((pyquil.instructions (program self) ++ E) ++ D)),
         set_program self
           (pyquil.mkProgram
              (pyquil.defined_gates (program self) ++ [crx_def; cry_def; crz_def])
              (pyquil.instructions (program self) ++ E))).
Proof.
  intros [Hv Hth] Hrot0.
  pose proof (well_formed_input_le _ Hv) as Hinput.
  pose proof (wf_qubits_NoDup _ Hv) as Hnd.
  destruct (blocks_built self Hinput Hnd (num_input_qubits self + 2)) as (Ps & Hcall & Hres).
  { done. }
  { intros b Hb. by apply well_formed_axes_lookup. }
  { intros b Hb. rewrite Hth. apply block_end_le. lia. }
  set (E := concat (map pyquil.instructions Ps)).
  assert (Forall (rotation_on (qubits self)) E) as HrotE.
  { eapply Forall_impl; [by eapply blocks_rotation|].
    intros g. apply rotation_on_input_qubits. }
  destruct (dagger_and_flip_rotation
    (pyquil.mkProgram (pyquil.defined_gates (program self) ++ [crx_def; cry_def; crz_def])
       (pyquil.instructions (program self) ++ E)) (qubits self) Hnd) as (D & HD & Hdag).
  { simpl. by apply Forall_app. }
  exists E, D. split_and!; [| done | done |].
  - unfold E. erewrite blocks_length by done. apply sum_block_size_all.
  - rewrite build_circuit_blocks. unfold_method.
    rewrite (run_blocks_built self _ _ _ Hcall Hres). fold E. simpl.
    rewrite app_nil_r. unfold finish. unfold_method. rewrite Hdag. simpl.
    unfold pyquil.add, set_program. simpl. by rewrite app_nil_r.
Qed.

Lemma dagger_flip_instruction_Some Q e d :
  dagger_flip_instruction Q e = Some d ↔
    pyquil.name d = pyquil.name e
    ∧ pyquil.params d = map Z.opp (pyquil.params e)
    ∧ Forall2 (λ q q', position_reversal Q q = Some q') (pyquil.qubits e) (pyquil.qubits d).
Proof.
  unfold dagger_flip_instruction. split.
  - destruct (mapM _ _) as [qs|] eqn:Hqs; simpl; [|done].
    intros [= <-]. simpl. split_and!; [done | done | by apply mapM_Some_1].
  - intros (Hnm & Hps & Hqs). apply mapM_Some_2 in Hqs. rewrite Hqs. simpl.
    destruct d as [nm ps qs]. simpl in *. by subst.
Qed.

Lemma dagger_and_flip_mapM defs E Q D :
  NoDup Q → Forall (rotation_on Q) E →
  mapM (dagger_flip_instruction Q) (reverse E) = Some D →
  dagger_and_flip (pyquil.mkProgram defs E) Q = Ok (pyquil.mkProgram [] D).
Proof.
  intros Hnd Hrot HD. rewrite dagger_and_flip_spec; simpl.
  - by rewrite HD.
  - done.
  - eapply Forall_impl; [exact Hrot|]. by intros g (? & _ & ?).
Qed.

(** [build_circuit] on a freshly constructed object. *)
Lemma build_circuit_init N L thetas axes qubits :
  let self := init N L thetas axes qubits in
  valid self →
  ∃ E D,
    length E = total_thetas (num_input_qubits self)
    ∧ Forall (rotation_on (QAECircuit.qubits self)) E
    ∧ mapM (dagger_flip_instruction (QAECircuit.qubits self)) (reverse E) = Some D
    ∧ dagger_and_flip (pyquil.mkProgram [crx_def; cry_def; crz_def] E)
        (QAECircuit.qubits self) = Ok (pyquil.mkProgram [] D)
    ∧ build_circuit self =
        (Ok (pyquil.mkProgram [crx_def; cry_def; crz_def] (E ++ D)),
         set_program self (pyquil.mkProgram [crx_def; cry_def; crz_def] E)).
Proof.
  intros self Hv.
  destruct (build_circuit_valid self Hv) as (E & D & Hlen & Hrot & HD & Hbuild).
  { constructor. }
  change (pyquil.instructions (program self)) with (@nil Gate) in *.
  change (pyquil.defined_gates (program self)) with (@nil pyquil.DefGate) in *.
  rewrite !app_nil_l in *.
  exists E, D. split_and!; [done | done | done | | done].
  apply dagger_and_flip_mapM; [exact (wf_qubits_NoDup _ (proj1 Hv)) | done | done].
Qed.

(** * The claims *)

Lemma scenario_valid : valid scenario.
Proof.
  split; [split|]; simpl; [reflexivity | lia | reflexivity | | lia | | reflexivity].
  - by repeat constructor; left.
  - apply (NoDup_seq 0 4).
Qed.

(** C1. For a valid configuration the [k]-th instruction of the decode stage
    corresponds to the instruction at position [len(encode) - 1 - k] of the
    encode stage: it has the same gate name, its angles are those of the
    encode instruction negated, and its qubits are those of the encode
    instruction, in the same order (so the control stays first), each mapped
    through the position-reversal mapping of the full qubit ordering. *)
Theorem decode_reverses_encode N L thetas axes qubits :
  let self := init N L thetas axes qubits in
  valid self →
  ∃ result encode decode,
    (build_circuit self).1 = Ok result
    ∧ program (build_circuit self).2 = encode
    ∧ dagger_and_flip encode (QAECircuit.qubits self) = Ok decode
    ∧ pyquil.instructions result
        = pyquil.instructions encode ++ pyquil.instructions decode
    ∧ ∀ k, k < length (pyquil.instructions encode) →
        ∃ e d,
          pyquil.instructions encode !! (length (pyquil.instructions encode) - 1 - k) = Some e
          ∧ pyquil.instructions decode !! k = Some d
          ∧ pyquil.name d = pyquil.name e
          ∧ pyquil.params d = map Z.opp (pyquil.params e)
          ∧ Forall2 (λ q q', position_reversal (QAECircuit.qubits self) q = Some q')
              (pyquil.qubits e) (pyquil.qubits d).
Proof.
  intros self Hv.
  destruct (build_circuit_init N L thetas axes qubits Hv)
    as (E & D & Hlen & Hrot & HD & Hdag & Hbuild).
  fold self in Hbuild, Hdag, HD. rewrite Hbuild.
  eexists _, _, _. split_and!; [done | done | exact Hdag | done |].
  simpl. intros k Hk.
  destruct (lookup_lt_is_Some_2 E (length E - 1 - k)) as [e He]; [lia|].
  apply mapM_Some_1 in HD.
  destruct (Forall2_lookup_l _ _ _ k e HD) as (d & Hd & Hed).
  { rewrite reverse_lookup by done. by replace (length E - S k) with (length E - 1 - k) by lia. }
  apply dagger_flip_instruction_Some in Hed as (? & ? & ?).
  by exists e, d.
Qed.

Lemma decode_reverses_encode_witness :
  valid scenario ∧
  ∃ result encode decode,
    (build_circuit scenario).1 = Ok result
    ∧ program (build_circuit scenario).2 = encode
    ∧ dagger_and_flip encode (QAECircuit.qubits scenario) = Ok decode
    ∧ pyquil.instructions result
        = pyquil.instructions encode ++ pyquil.instructions decode
    ∧ ∀ k, k < length (pyquil.instructions encode) →
        ∃ e d,
          pyquil.instructions encode !! (length (pyquil.instructions encode) - 1 - k) = Some e
          ∧ pyquil.instructions decode !! k = Some d
          ∧ pyquil.name d = pyquil.name e
          ∧ pyquil.params d = map Z.opp (pyquil.params e)
          ∧ Forall2 (λ q q', position_reversal (QAECircuit.qubits scenario) q = Some q')
              (pyquil.qubits e) (pyquil.qubits d).
Proof.
  split; [exact scenario_valid|].
  exact (decode_reverses_encode 4 0 [10; 11; 12; 13; 14; 15]%Z None None scenario_valid).
Defined.

(** C3. For a valid configuration with [n] input qubits the encode stage has
    [n + n * (n - 1) + n = 2 * n + n * (n - 1)] instructions, the decode stage
    has as many, and the result of [build_circuit] is the encode stage
    followed by the decode stage. *)
Theorem build_circuit_lengths N L thetas axes qubits :
  let self := init N L thetas axes qubits in
  let n := num_input_qubits self in
  valid self →
  ∃ result encode decode,
    (build_circuit self).1 = Ok result
    ∧ program (build_circuit self).2 = encode
    ∧ dagger_and_flip encode (QAECircuit.qubits self) = Ok decode
    ∧ result = pyquil.add encode decode
    ∧ pyquil.instructions result
        = pyquil.instructions encode ++ pyquil.instructions decode
    ∧ length (pyquil.instructions encode) = n + n * (n - 1) + n
    ∧ n + n * (n - 1) + n = 2 * n + n * (n - 1)
    ∧ length (pyquil.instructions decode) = length (pyquil.instructions encode).
Proof.
  intros self n Hv.
  destruct (build_circuit_init N L thetas axes qubits Hv)
    as (E & D & Hlen & Hrot & HD & Hdag & Hbuild).
  fold self in Hbuild, Hdag, HD, Hlen. fold n in Hlen. rewrite Hbuild.
  eexists _, _, _. split_and!; [done | done | exact Hdag | done | done | | lia |]; simpl.
  - rewrite Hlen. unfold total_thetas. lia.
  - apply length_mapM in HD. by rewrite <- HD, length_reverse.
Qed.

Lemma build_circuit_lengths_witness :
  valid scenario ∧
  ∃ result encode decode,
    (build_circuit scenario).1 = Ok result
    ∧ program (build_circuit scenario).2 = encode
    ∧ dagger_and_flip encode (QAECircuit.qubits scenario) = Ok decode
    ∧ result = pyquil.add encode decode
    ∧ pyquil.instructions result
        = pyquil.instructions encode ++ pyquil.instructions decode
    ∧ length (pyquil.instructions encode) = 2 + 2 * (2 - 1) + 2
    ∧ 2 + 2 * (2 - 1) + 2 = 2 * 2 + 2 * (2 - 1)
    ∧ length (pyquil.instructions decode) = length (pyquil.instructions encode).
Proof.
  split; [exact scenario_valid|].
  exact (build_circuit_lengths 4 0 [10; 11; 12; 13; 14; 15]%Z None None scenario_valid).
Defined.

Lemma position_reversal_elem Q q q' : position_reversal Q q = Some q' → q' ∈ Q.
Proof.
  unfold position_reversal. destruct (list_find _ Q) as [[k x]|]; simpl; [|done].
  apply list_elem_of_lookup_2.
Qed.

Lemma dagger_flip_instruction_rotation Q e d :
  dagger_flip_instruction Q e = Some d → rotation_on Q e → rotation_on Q d.
Proof.
  intros (Hnm & Hps & Hqs)%dagger_flip_instruction_Some (Hrot & _ & Har). split_and!.
  - by rewrite Hnm.
  - apply Forall_lookup. intros i q' Hq'.
    destruct (Forall2_lookup_r _ _ _ _ _ Hqs Hq') as (q & _ & Hq).
    by eapply position_reversal_elem.
  - unfold arity_ok in *. rewrite Hnm, Hps, length_map.
    by rewrite <- (Forall2_length _ _ _ Hqs).
Qed.

Lemma dagger_flip_instruction_involutive Q e d :
  NoDup Q → dagger_flip_instruction Q e = Some d → dagger_flip_instruction Q d = Some e.
Proof.
  intros Hnd (Hnm & Hps & Hqs)%dagger_flip_instruction_Some.
  apply dagger_flip_instruction_Some. split_and!; [done | |].
  - rewrite Hps, map_map. rewrite <- (map_id (pyquil.params e)) at 1.
    apply map_ext. intros x. lia.
  - apply Forall2_flip. eapply Forall2_impl; [exact Hqs|].
    intros q q'. by apply position_reversal_involutive.
Qed.

(** X19. For a program of rotation instructions (named RX, RY, RZ, CRX or
    CRY, those of pyquil with one angle and one qubit) whose qubits are in the
    ordering [Q], [Q] without duplicates, applying [dagger_and_flip] twice
    succeeds and gives back the instructions of the program; the result
    carries no gate definition. *)
Theorem dagger_and_flip_involutive (P : Program) (Q : list nat) :
  NoDup Q → Forall (rotation_on Q) (pyquil.instructions P) →
  ∃ P', dagger_and_flip P Q = Ok P'
        ∧ dagger_and_flip P' Q = Ok (pyquil.mkProgram [] (pyquil.instructions P)).
Proof.
  intros Hnd Hrot.
  destruct (dagger_and_flip_rotation P Q Hnd Hrot) as (D & HD & Hdag).
  exists (pyquil.mkProgram [] D). split; [done|].
  apply mapM_Some_1 in HD.
  apply dagger_and_flip_mapM; [done | |].
  - apply Forall_lookup. intros i d Hd.
    destruct (Forall2_lookup_r _ _ _ _ _ HD Hd) as (e & He & Hed).
    eapply dagger_flip_instruction_rotation; [exact Hed|].
    rewrite Forall_forall in Hrot. apply Hrot.
    apply elem_of_reverse. by eapply list_elem_of_lookup_2.
  - apply mapM_Some_2. apply Forall2_reverse in HD.
    rewrite reverse_involutive in HD. apply Forall2_flip.
    eapply Forall2_impl; [exact HD|].
    intros e d. by apply dagger_flip_instruction_involutive.
Qed.

Lemma dagger_and_flip_involutive_witness :
  NoDup [0; 1; 2; 3]
  ∧ Forall (rotation_on [0; 1; 2; 3])
      [pyquil.mkGate "RY" [7%Z] [1]; pyquil.mkGate "CRX" [3%Z] [0; 2]]
  ∧ ∃ P', dagger_and_flip
            (pyquil.mkProgram []
               [pyquil.mkGate "RY" [7%Z] [1]; pyquil.mkGate "CRX" [3%Z] [0; 2]])
            [0; 1; 2; 3] = Ok P'
          ∧ dagger_and_flip P' [0; 1; 2; 3]
            = Ok (pyquil.mkProgram []
                    [pyquil.mkGate "RY" [7%Z] [1]; pyquil.mkGate "CRX" [3%Z] [0; 2]]).
Proof.
  assert (NoDup [0; 1; 2; 3]) as Hnd by exact (NoDup_seq 0 4).
  assert (Forall (rotation_on [0; 1; 2; 3])
            [pyquil.mkGate "RY" [7%Z] [1]; pyquil.mkGate "CRX" [3%Z] [0; 2]]) as Hrot.
  { apply Forall_cons_2; [|apply Forall_cons_2; [|apply Forall_nil_2]]; split_and!; simpl.
    - unfold rotation_names. rewrite !elem_of_cons. auto.
    - repeat constructor.
    - apply arity_ok_one.
    - unfold rotation_names. rewrite !elem_of_cons. auto 6.
    - repeat constructor.
    - apply arity_ok_defined. unfold standard_names.
      rewrite !elem_of_cons, elem_of_nil. by intros [? | [? | [? | []]]]. }
  split_and!; [exact Hnd | exact Hrot |].
  exact (dagger_and_flip_involutive
           (pyquil.mkProgram []
              [pyquil.mkGate "RY" [7%Z] [1]; pyquil.mkGate "CRX" [3%Z] [0; 2]])
           [0; 1; 2; 3] Hnd Hrot).
Defined.

(** C2. At an instruction of the gate type CRZ on two qubits of the
    ordering [[0; 1]], which has no duplicates: [dagger_and_flip] re-creates
    the instruction with the entry of [gates_dict] for its name, and that
    entry is the constructor of CRX.  Applied twice, the transform succeeds
    and returns an instruction named CRX, with the angle and the qubits of
    the original: the program does not come back. *)
Theorem dagger_and_flip_twice_CRZ :
  NoDup [0; 1]
  ∧ Forall (λ g, pyquil.name g ∈ registry_names
                 ∧ Forall (λ q, q ∈ [0; 1]) (pyquil.qubits g))
      [pyquil.mkGate "CRZ" [5%Z] [0; 1]]
  ∧ dagger_and_flip (pyquil.mkProgram [] [pyquil.mkGate "CRZ" [5%Z] [0; 1]]) [0; 1]
    = Ok (pyquil.mkProgram [] [pyquil.mkGate "CRX" [(-5)%Z] [1; 0]])
  ∧ (dagger_and_flip (pyquil.mkProgram [] [pyquil.mkGate "CRZ" [5%Z] [0; 1]]) [0; 1]
       ≫= λ P', dagger_and_flip P' [0; 1])
    = Ok (pyquil.mkProgram [] [pyquil.mkGate "CRX" [5%Z] [0; 1]])
  ∧ (dagger_and_flip (pyquil.mkProgram [] [pyquil.mkGate "CRZ" [5%Z] [0; 1]]) [0; 1]
       ≫= λ P', dagger_and_flip P' [0; 1])
    ≠ Ok (pyquil.mkProgram [] [pyquil.mkGate "CRZ" [5%Z] [0; 1]]).
Proof.
  split_and!.
  - exact (NoDup_seq 0 2).
  - apply Forall_singleton. split; simpl.
    + unfold registry_names. rewrite !elem_of_cons. auto 7.
    + repeat constructor.
  - reflexivity.
  - reflexivity.
  - discriminate.
Qed.

(** C4. With a valid axis, a control qubit of the qubit list and one angle
    less than qubits, [build_controlled_rotation_block] emits, for the
    qubits other than the control in the order of the list, one instruction
    of the registry's two-qubit gate of the axis on [(control, qubit)], the
    [j]-th of them with the [j]-th angle: one instruction per non-control
    qubit, which are all the qubits but one when none is repeated. *)
Theorem controlled_block_instructions axis (qubits : list nat) thetas control :
  valid_axis axis → control ∈ qubits → length thetas = length qubits - 1 →
  ∃ nm,
    gate_from_axis axis 2 = Ok (λ params qubits, Ok (pyquil.mkGate nm params qubits))
    ∧ build_controlled_rotation_block axis qubits thetas control =
        Ok (pyquil.mkProgram []
              (zip_with (λ th q, pyquil.mkGate nm [th] [control; q])
                 thetas (filter (λ q, q ≠ control) qubits)))
    ∧ length (zip_with (λ th q, pyquil.mkGate nm [th] [control; q])
                thetas (filter (λ q, q ≠ control) qubits))
      = length (filter (λ q, q ≠ control) qubits)
    ∧ (NoDup qubits → length (filter (λ q, q ≠ control) qubits) = length qubits - 1).
Proof.
  intros Ha Hc Hlen.
  pose proof (length_filter_control_le qubits control Hc) as Hle.
  destruct (gate_from_axis_valid_2 axis Ha) as (nm & _ & _ & Hg).
  exists nm. split_and!; [done | | |].
  - unfold build_controlled_rotation_block. rewrite Hg. simpl.
    by rewrite controlled_loop_ok by (simpl; lia).
  - rewrite length_zip_with. lia.
  - intros Hnd. by apply length_filter_control.
Qed.

Lemma controlled_block_instructions_witness :
  valid_axis "Y" ∧ 1 ∈ [0; 1; 2] ∧ length [7; 8]%Z = length [0; 1; 2] - 1
  ∧ ∃ nm,
    gate_from_axis "Y" 2 = Ok (λ params qubits, Ok (pyquil.mkGate nm params qubits))
    ∧ build_controlled_rotation_block "Y" [0; 1; 2] [7; 8]%Z 1 =
        Ok (pyquil.mkProgram []
              (zip_with (λ th q, pyquil.mkGate nm [th] [1; q])
                 [7; 8]%Z (filter (λ q, q ≠ 1) [0; 1; 2])))
    ∧ length (zip_with (λ th q, pyquil.mkGate nm [th] [1; q])
                [7; 8]%Z (filter (λ q, q ≠ 1) [0; 1; 2]))
      = length (filter (λ q, q ≠ 1) [0; 1; 2])
    ∧ (NoDup [0; 1; 2] → length (filter (λ q, q ≠ 1) [0; 1; 2]) = length [0; 1; 2] - 1).
Proof.
  assert (valid_axis "Y") as Ha by (right; left; reflexivity).
  assert (1 ∈ [0; 1; 2]) as Hc by (apply list_elem_of_further, list_elem_of_here).
  split_and!; [exact Ha | exact Hc | reflexivity |].
  exact (controlled_block_instructions "Y" [0; 1; 2] [7; 8]%Z 1 Ha Hc eq_refl).
Defined.

(** C7. If an instruction of the program refers to a qubit that has no entry
    in the dictionary built from the ordering, [dagger_and_flip] raises
    KeyError (a LookupError) and returns no program.  The instructions are
    those of the data model: one of a gate of pyquil (RX, RY, RZ) has one
    angle and one qubit, so that no call of a constructor is refused before
    the lookup fails. *)
Theorem dagger_and_flip_LookupError (P : Program) (Q : list nat) g q :
  Forall arity_ok (pyquil.instructions P) →
  g ∈ pyquil.instructions P → q ∈ pyquil.qubits g →
  dict (zip Q (reverse Q)) !! q = None →
  dagger_and_flip P Q = Raise KeyError.
Proof.
  intros Har Hg Hq HM. unfold dagger_and_flip. apply flip_loop_fail.
  - by apply Forall_reverse.
  - apply Exists_exists. exists g. split; [by apply elem_of_reverse|].
    by eapply flip_gate_absent.
Qed.

Lemma dagger_and_flip_LookupError_witness :
  Forall arity_ok
    (pyquil.instructions
       (pyquil.mkProgram [] [pyquil.mkGate "RX" [1%Z] [5]; pyquil.mkGate "RY" [2%Z] [0]]))
  ∧ pyquil.mkGate "RX" [1%Z] [5]
    ∈ pyquil.instructions
        (pyquil.mkProgram [] [pyquil.mkGate "RX" [1%Z] [5]; pyquil.mkGate "RY" [2%Z] [0]])
  ∧ 5 ∈ pyquil.qubits (pyquil.mkGate "RX" [1%Z] [5])
  ∧ dict (zip [0; 1] (reverse [0; 1])) !! 5 = None
  ∧ dagger_and_flip
      (pyquil.mkProgram [] [pyquil.mkGate "RX" [1%Z] [5]; pyquil.mkGate "RY" [2%Z] [0]])
      [0; 1] = Raise KeyError.
Proof.
  assert (pyquil.mkGate "RX" [1%Z] [5]
            ∈ pyquil.instructions
                (pyquil.mkProgram []
                   [pyquil.mkGate "RX" [1%Z] [5]; pyquil.mkGate "RY" [2%Z] [0]])) as Hg
    by apply list_elem_of_here.
  assert (5 ∈ pyquil.qubits (pyquil.mkGate "RX" [1%Z] [5])) as Hq
    by apply list_elem_of_here.
  assert (Forall arity_ok
            (pyquil.instructions
               (pyquil.mkProgram []
                  [pyquil.mkGate "RX" [1%Z] [5]; pyquil.mkGate "RY" [2%Z] [0]]))) as Har
    by (simpl; apply Forall_cons_2; [|apply Forall_cons_2; [|apply Forall_nil_2]];
        apply arity_ok_one).
  split_and!; [exact Har | exact Hg | exact Hq | reflexivity |].
  exact (dagger_and_flip_LookupError _ [0; 1] _ 5 Har Hg Hq eq_refl).
Defined.

(** C8.  What the code does: the registry entry for the two-qubit gate of
    axis Z is the constructor of the definition of CRX.  Its instructions
    are named CRX, the name under which the program defines the matrix
    [crx]; the definition named CRZ, with the matrix [crz], is not used. *)
Theorem CRZ_is_built_from_crx_def :
  gates_dict !! "CRZ"%string = Some (pyquil.get_constructor crx_def)
  ∧ gate_from_axis "Z" 2 = Ok (pyquil.get_constructor crx_def)
  ∧ (∀ th control target,
       pyquil.get_constructor crx_def [th] [control; target]
         = Ok (pyquil.mkGate "CRX" [th] [control; target])
       ∧ pyquil.get_constructor crx_def [th] [control; target]
         ≠ pyquil.get_constructor crz_def [th] [control; target])
  ∧ pyquil.def_name crz_def = "CRZ"%string
  ∧ pyquil.matrix crx_def ≠ pyquil.matrix crz_def.
Proof.
  split_and!; [reflexivity | reflexivity | | reflexivity | discriminate].
  intros th c tg. split; [reflexivity | discriminate].
Qed.

(** C9. Without [axes] the object holds [n + 2] copies of ["X"], without
    [qubits] it holds [0, 1, ..., num_qubits - 1], and the circuit built is
    the one built when these lists are passed. *)
Theorem defaults_as_explicit N L thetas axes qubits :
  let n := (N + L) `div` 2 in
  QAECircuit.axes (init N L thetas None qubits) = replicate (n + 2) "X"%string
  ∧ QAECircuit.qubits (init N L thetas axes None) = seq 0 N
  ∧ build_circuit (init N L thetas None None)
    = build_circuit (init N L thetas (Some (replicate (n + 2) "X"%string)) (Some (seq 0 N)))
  ∧ build_circuit (init N L thetas None qubits)
    = build_circuit (init N L thetas (Some (replicate (n + 2) "X"%string)) qubits)
  ∧ build_circuit (init N L thetas axes None)
    = build_circuit (init N L thetas axes (Some (seq 0 N))).
Proof. by split_and!. Qed.

(** Splitting the blocks at block [j]. *)
Lemma seq_blocks_split n j :
  j ≤ n + 1 → seq 0 (n + 2) = seq 0 j ++ j :: seq (S j) (n + 1 - j).
Proof.
  intros Hj. replace (n + 2) with (j + S (n + 1 - j)) by lia.
  by rewrite seq_app.
Qed.

(** C5 as the specification states it fails: with one angle missing the
    slice of the final block is cut short without an error, [build_circuit]
    raises only in the final block, and the object then holds the four
    instructions of the blocks built before. *)
Lemma eager_validation_counterexample :
  well_formed scenario_short
  ∧ length (thetas scenario_short) + 1 = total_thetas (num_input_qubits scenario_short)
  ∧ slice (thetas scenario_short) 4 6 = [14%Z]
  ∧ (build_circuit scenario_short).1 = Raise IndexError
  ∧ pyquil.instructions (program (build_circuit scenario_short).2)
    = [pyquil.mkGate "RX" [10%Z] [0]; pyquil.mkGate "RX" [11%Z] [1];
       pyquil.mkGate "CRX" [12%Z] [0; 1]; pyquil.mkGate "CRX" [13%Z] [1; 0]]
  ∧ pyquil.instructions (program (build_circuit scenario_short).2) ≠ [].
Proof.
  split_and!; try reflexivity; [|discriminate].
  split; simpl; [reflexivity | lia | reflexivity | | lia | apply (NoDup_seq 0 4)].
  by repeat constructor; left.
Qed.

(** C5, as the code has it.  When [thetas] is shorter than
    [2 * n + n * (n - 1)], the configuration being valid otherwise,
    [build_circuit] raises IndexError, in the block whose shortened slice
    runs out; with one angle missing this is the final block, and the
    [n + n * (n - 1)] instructions of the blocks before it are in the program
    of the object. *)
Theorem build_circuit_short_thetas N L thetas axes qubits :
  let self := init N L thetas axes qubits in
  let n := num_input_qubits self in
  well_formed self → length thetas < total_thetas n →
  (build_circuit self).1 = Raise IndexError
  ∧ (length thetas + 1 = total_thetas n →
     length (pyquil.instructions (program (build_circuit self).2)) = n + n * (n - 1)).
Proof.
  intros self n Hwf Hth.
  pose proof (well_formed_input_le _ Hwf) as Hinput.
  pose proof (wf_qubits_NoDup _ Hwf) as Hnd.
  destruct (well_formed_axes_lookup self (n + 1) Hwf) as (a & Ha & Hva); [unfold n; lia|].
  assert (block_call self (n + 1) = Raise IndexError) as Hfinal.
  { by apply (block_call_final_short self Hinput a). }
  rewrite build_circuit_blocks. fold n. split.
  - unfold_method.
    assert (∀ s, (run_blocks self (seq 0 (n + 2)) s).1 = Raise IndexError) as Hrun.
    { apply run_blocks_IndexError.
      - intros b e [_ Hb]%elem_of_seq Hbe.
        destruct (well_formed_axes_lookup self b Hwf) as (a' & Ha' & Hva');
          [unfold n in *; lia|].
        eapply (block_call_raise self Hinput b a'); [unfold n in *; lia | done | done | done].
      - exists (n + 1). split; [apply elem_of_seq; lia | done]. }
    match goal with |- context [run_blocks self ?bs ?s] =>
      specialize (Hrun s); destruct (run_blocks self bs s) as [r s1] end.
    simpl in Hrun. by rewrite Hrun.
  - intros Hone.
    assert (1 ≤ n) as Hn by (unfold total_thetas in Hth; destruct n; simpl in *; lia).
    destruct (blocks_built self Hinput Hnd (n + 1)) as (Ps & Hcall & Hres).
    { unfold n. lia. }
    { intros b Hb. apply well_formed_axes_lookup; [done | unfold n in *; lia]. }
    { intros b Hb. fold n. rewrite block_start_S by lia.
      pose proof (block_start_mono n (S b) (n + 1)) as Hmono.
      pose proof (block_start_final n) as Hfin.
      change (length (QAECircuit.thetas self)) with (length thetas). lia. }
    rewrite (seq_blocks_split n (n + 1)) by lia.
    replace (n + 1 - (n + 1)) with 0 by lia. simpl seq.
    unfold_method. rewrite (run_blocks_raise self _ Ps _ IndexError [] _ Hcall Hfinal).
    simpl. rewrite foldl_add_instructions. simpl.
    erewrite blocks_length by exact Hres.
    rewrite sum_block_size by lia. unfold block_start.
    rewrite decide_False by lia. replace (n + 1 - 1) with n by lia. lia.
Qed.

Lemma build_circuit_short_thetas_witness :
  well_formed scenario_short
  ∧ length [10; 11; 12; 13; 14]%Z < total_thetas (num_input_qubits scenario_short)
  ∧ (build_circuit scenario_short).1 = Raise IndexError
  ∧ (length [10; 11; 12; 13; 14]%Z + 1 = total_thetas (num_input_qubits scenario_short) →
     length (pyquil.instructions (program (build_circuit scenario_short).2))
       = num_input_qubits scenario_short
         + num_input_qubits scenario_short * (num_input_qubits scenario_short - 1)).
Proof.
  assert (well_formed scenario_short) as Hwf.
  { split; simpl; [reflexivity | lia | reflexivity | | lia | apply (NoDup_seq 0 4)].
    by repeat constructor; left. }
  assert (length [10; 11; 12; 13; 14]%Z < total_thetas (num_input_qubits scenario_short))
    as Hth by (vm_compute; lia).
  split_and!; [exact Hwf | exact Hth | |];
    apply (build_circuit_short_thetas 4 0 [10; 11; 12; 13; 14]%Z None None Hwf Hth).
Defined.

(** C10. When the axis of block [j] is not X, Y or Z, the axes of the blocks
    before it being valid and the rest of the configuration as well,
    [build_circuit] raises KeyError at block [j]: by then the blocks
    [0 .. j - 1] have been built and appended, and their instructions, as
    many as there are angles before block [j], are in the program of the
    object. *)
Theorem build_circuit_invalid_axis N L thetas axes qubits j a :
  let self := init N L thetas axes qubits in
  let n := num_input_qubits self in
  n ≤ length (QAECircuit.qubits self) → NoDup (QAECircuit.qubits self) →
  length thetas = total_thetas n →
  j ≤ n + 1 → QAECircuit.axes self !! j = Some a → ¬ valid_axis a →
  (∀ b, b < j → ∃ a', QAECircuit.axes self !! b = Some a' ∧ valid_axis a') →
  ∃ blocks,
    (build_circuit self).1 = Raise KeyError
    ∧ Forall2 (λ b P, block_call self b = Ok P) (seq 0 j) blocks
    ∧ pyquil.instructions (program (build_circuit self).2)
      = concat (map pyquil.instructions blocks)
    ∧ length (pyquil.instructions (program (build_circuit self).2)) = block_start n j.
Proof.
  intros self n Hinput Hnd Hth Hj Ha Hinv Hbefore.
  destruct (blocks_built self Hinput Hnd j) as (Ps & Hcall & Hres).
  { unfold n in *. lia. }
  { done. }
  { intros b Hb. fold n. change (length (QAECircuit.thetas self)) with (length thetas).
    rewrite Hth. apply block_end_le. lia. }
  assert (block_call self j = Raise KeyError) as Hfail.
  { by apply (block_call_invalid_axis self Hinput j a). }
  exists Ps. rewrite build_circuit_blocks. fold n.
  rewrite (seq_blocks_split n j) by done. unfold_method.
  rewrite (run_blocks_raise self _ Ps _ KeyError _ _ Hcall Hfail). simpl.
  rewrite foldl_add_instructions. simpl.
  split_and!; [done | done | done |].
  erewrite blocks_length by exact Hres. by apply sum_block_size.
Qed.

Lemma build_circuit_invalid_axis_witness :
  num_input_qubits scenario_axis ≤ length (QAECircuit.qubits scenario_axis)
  ∧ NoDup (QAECircuit.qubits scenario_axis)
  ∧ length [10; 11; 12; 13; 14; 15]%Z = total_thetas (num_input_qubits scenario_axis)
  ∧ 2 ≤ num_input_qubits scenario_axis + 1
  ∧ QAECircuit.axes scenario_axis !! 2 = Some "W"%string
  ∧ ¬ valid_axis "W"
  ∧ (∀ b, b < 2 → ∃ a', QAECircuit.axes scenario_axis !! b = Some a' ∧ valid_axis a')
  ∧ ∃ blocks,
    (build_circuit scenario_axis).1 = Raise KeyError
    ∧ Forall2 (λ b P, block_call scenario_axis b = Ok P) (seq 0 2) blocks
    ∧ pyquil.instructions (program (build_circuit scenario_axis).2)
      = concat (map pyquil.instructions blocks)
    ∧ length (pyquil.instructions (program (build_circuit scenario_axis).2))
      = block_start (num_input_qubits scenario_axis) 2.
Proof.
  assert (num_input_qubits scenario_axis ≤ length (QAECircuit.qubits scenario_axis))
    as H1 by (simpl; lia).
  assert (NoDup (QAECircuit.qubits scenario_axis)) as H2 by exact (NoDup_seq 0 4).
  assert (2 ≤ num_input_qubits scenario_axis + 1) as H4 by (simpl; lia).
  assert (¬ valid_axis "W") as H6 by (intros [? | [? | ?]]; discriminate).
  assert (∀ b, b < 2 →
            ∃ a', QAECircuit.axes scenario_axis !! b = Some a' ∧ valid_axis a') as H7.
  { intros [|[|b]] Hb; [| | lia]; simpl; eexists; (split; [reflexivity|]).
    - by left.
    - by right; left. }
  split_and!; [exact H1 | exact H2 | reflexivity | exact H4 | reflexivity | exact H6
               | exact H7 |].
  exact (build_circuit_invalid_axis 4 0 [10; 11; 12; 13; 14; 15]%Z
           (Some ["X"; "Y"; "W"; "X"]%string) None 2 "W" H1 H2 eq_refl H4 eq_refl H6 H7).
Defined.

(** *** What build_circuit changes in the object *)

Lemma extends_refl s : extends s s.
Proof. by repeat split. Qed.

Lemma extends_trans s1 s2 s3 : extends s1 s2 → extends s2 s3 → extends s1 s3.
Proof.
  intros ((? & ? & ? & ? & ? & ?) & ? & ?) ((? & ? & ? & ? & ? & ?) & ? & ?).
  repeat split; try congruence; by etrans.
Qed.

Lemma extends_iadd s p : extends s (set_program s (pyquil.add (program s) p)).
Proof. repeat split; simpl; by apply prefix_app_r. Qed.

Lemma run_blocks_extends self bs : ∀ s, extends s (run_blocks self bs s).2.
Proof.
  induction bs as [|b bs IH]; intros s; simpl; [apply extends_refl|].
  unfold_method. destruct (block_call self b) as [P|e]; simpl; [|apply extends_refl].
  eapply extends_trans; [apply (extends_iadd s P) | apply IH].
Qed.

(** Whether it returns or raises, [build_circuit] leaves the configuration
    as it is and only appends to the program of the object. *)
Lemma build_circuit_extends self : extends self (build_circuit self).2.
Proof.
  rewrite build_circuit_blocks. unfold_method.
  match goal with |- context [run_blocks self ?bs ?s] =>
    pose proof (run_blocks_extends self bs s) as Hrun;
    destruct (run_blocks self bs s) as [[[]|e] s1] end; simpl in *.
  - unfold finish. unfold_method.
    destruct (dagger_and_flip _ _); simpl;
      (eapply extends_trans; [apply (extends_iadd self def_gates_program) | exact Hrun]).
  - eapply extends_trans; [apply (extends_iadd self def_gates_program) | exact Hrun].
Qed.

Lemma valid_same_configuration s s' : same_configuration s s' → valid s → valid s'.
Proof.
  intros (HN & HL & Hn & Hq & Ha & Ht) [[? ? ? ? ? ?] ?].
  split; [split|]; rewrite ?HN, ?HL, ?Hn, ?Hq, ?Ha, ?Ht; done.
Qed.

(** C6, as the code has it.  On a valid configuration [build_circuit]
    succeeds, leaves the configuration of the object as it is and only
    appends to the program of the object; a second invocation on the same
    object succeeds as well, starts from the program the first one left, and
    returns twice as many instructions as the first. *)
Theorem build_circuit_accumulates N L thetas axes qubits :
  let self := init N L thetas axes qubits in
  valid self →
  ∃ r1 s1 r2 s2,
    build_circuit self = (Ok r1, s1)
    ∧ build_circuit s1 = (Ok r2, s2)
    ∧ same_configuration self s1 ∧ same_configuration s1 s2
    ∧ pyquil.instructions (program self) `prefix_of` pyquil.instructions (program s1)
    ∧ pyquil.instructions (program s1) `prefix_of` pyquil.instructions (program s2)
    ∧ length (pyquil.instructions r2) = 2 * length (pyquil.instructions r1).
Proof.
  intros self Hv.
  destruct (build_circuit_valid self Hv) as (E1 & D1 & Hlen1 & Hrot1 & HD1 & Hb1).
  { constructor. }
  pose proof (build_circuit_extends self) as (Hsame1 & _ & Hpre1).
  rewrite Hb1 in Hsame1, Hpre1. simpl in Hsame1, Hpre1.
  set (s1 := set_program self _) in *.
  assert (valid s1) as Hv1 by (by apply (valid_same_configuration self)).
  destruct (build_circuit_valid s1 Hv1) as (E2 & D2 & Hlen2 & Hrot2 & HD2 & Hb2).
  { exact Hrot1. }
  pose proof (build_circuit_extends s1) as (Hsame2 & _ & Hpre2).
  rewrite Hb2 in Hsame2, Hpre2. simpl in Hsame2, Hpre2.
  eexists _, s1, _, _. split_and!; [exact Hb1 | exact Hb2 | done | done | done | done |].
  apply length_mapM in HD1, HD2. rewrite length_reverse in HD1, HD2.
  simpl in *. rewrite !length_app in *. simpl in *. lia.
Qed.

Lemma build_circuit_accumulates_witness :
  valid scenario ∧
  ∃ r1 s1 r2 s2,
    build_circuit scenario = (Ok r1, s1)
    ∧ build_circuit s1 = (Ok r2, s2)
    ∧ same_configuration scenario s1 ∧ same_configuration s1 s2
    ∧ pyquil.instructions (program scenario) `prefix_of` pyquil.instructions (program s1)
    ∧ pyquil.instructions (program s1) `prefix_of` pyquil.instructions (program s2)
    ∧ length (pyquil.instructions r2) = 2 * length (pyquil.instructions r1).
Proof.
  split; [exact scenario_valid|].
  exact (build_circuit_accumulates 4 0 [10; 11; 12; 13; 14; 15]%Z None None scenario_valid).
Defined.

(** C6 as the specification states it fails: the first invocation changes
    the object, and a second invocation on it, with the same [N], [L],
    [thetas], [axes] and qubits, returns another program. *)
Lemma build_circuit_twice_counterexample :
  ∃ r1 r2,
    (build_circuit scenario).1 = Ok r1
    ∧ (build_circuit (build_circuit scenario).2).1 = Ok r2
    ∧ same_configuration scenario (build_circuit scenario).2
    ∧ (build_circuit scenario).2 ≠ scenario
    ∧ length (pyquil.instructions r1) = 12
    ∧ length (pyquil.instructions r2) = 24
    ∧ r1 ≠ r2.
Proof.
  eexists _, _. split_and!; [reflexivity | reflexivity | by repeat split | | | |].
  - intros H. apply (f_equal (λ s, length (pyquil.instructions (program s)))) in H.
    vm_compute in H. discriminate.
  - reflexivity.
  - reflexivity.
  - intros H. apply (f_equal (λ p, length (pyquil.instructions p))) in H.
    vm_compute in H. discriminate.
Qed.


(** * Further properties of the code *)

(** ** The registry and the block builders in closed form *)

Lemma gates_dict_is_Some nm : is_Some (gates_dict !! nm) ↔ nm ∈ registry_names.
Proof.
  unfold registry_names. rewrite !elem_of_cons, elem_of_nil. split.
  - unfold gates_dict. rewrite !lookup_insert, lookup_empty.
    repeat case_decide; subst; auto 10. by intros [? ?].
  - intros [-> | [-> | [-> | [-> | [-> | [-> | []]]]]]]; by eexists.
Qed.

Lemma gate_from_axis_gate_name a k :
  valid_axis a →
  gate_from_axis a k =
    Ok (if decide (2 = k)
        then λ params qubits, Ok (pyquil.mkGate (gate_name a k) params qubits)
        else pyquil.standard_gate (gate_name a k)).
Proof.
  unfold gate_from_axis, gate_name.
  intros [-> | [-> | ->]]; destruct (decide (2 = k)); reflexivity.
Qed.

(** X1. [gate_from_axis] finds a gate exactly for the axes X, Y and Z, and
    raises KeyError for any other string.  For two qubits the gate is the
    constructor of a gate definition and makes instructions named CRX for
    the axes X and Z and CRY for the axis Y; for any other number of
    qubits, not only for one, it is the single-qubit gate of pyquil for the
    axis. *)
Theorem gate_from_axis_closed a k :
  gate_from_axis a k =
    if decide (valid_axis a) then
      Ok (if decide (2 = k)
          then λ params qubits, Ok (pyquil.mkGate (gate_name a k) params qubits)
          else pyquil.standard_gate (gate_name a k))
    else Raise KeyError.
Proof.
  destruct (decide (valid_axis a)) as [Ha | Ha].
  - by apply gate_from_axis_gate_name.
  - by apply gate_from_axis_invalid.
Qed.

(** X2. [build_rotation_block] raises KeyError for an axis other than X, Y
    and Z, also when there is no qubit; with a valid axis it raises
    IndexError when there are fewer angles than qubits (the lengths are not
    compared beforehand), and otherwise returns one instruction per qubit,
    the [i]-th of them the rotation of the axis by [thetas[i]] on
    [qubits[i]]; angles beyond the number of qubits are not used. *)
Theorem build_rotation_block_closed a (qs : list nat) (ths : list Z) :
  build_rotation_block a qs ths =
    if decide (valid_axis a) then
      if decide (length qs ≤ length ths) then
        Ok (pyquil.mkProgram []
              (zip_with (λ th q, pyquil.mkGate (gate_name a 1) [th] [q]) ths qs))
      else Raise IndexError
    else Raise KeyError.
Proof.
  unfold build_rotation_block.
  destruct (decide (valid_axis a)) as [Ha | Ha];
    [rewrite gate_from_axis_gate_name by done | by rewrite gate_from_axis_invalid].
  simpl.
  destruct (decide (length qs ≤ length ths)).
  - by rewrite rotation_loop_ok by (simpl; lia).
  - apply rotation_loop_short. lia.
Qed.

(** X3. [build_controlled_rotation_block] raises KeyError for an axis other
    than X, Y and Z; with a valid axis it raises IndexError when there are
    fewer angles than qubits different from the control, and otherwise
    returns one instruction on [(control, qubit)] for each qubit different
    from the control, in the order of the list, the [j]-th of them with
    [thetas[j]].  The control need not be in the list, and a qubit equal to
    the control is skipped each time it occurs. *)
Theorem build_controlled_rotation_block_closed a (qs : list nat) (ths : list Z) c :
  build_controlled_rotation_block a qs ths c =
    if decide (valid_axis a) then
      if decide (length (filter (λ q, q ≠ c) qs) ≤ length ths) then
        Ok (pyquil.mkProgram []
              (zip_with (λ th q, pyquil.mkGate (gate_name a 2) [th] [c; q])
                 ths (filter (λ q, q ≠ c) qs)))
      else Raise IndexError
    else Raise KeyError.
Proof.
  unfold build_controlled_rotation_block.
  destruct (decide (valid_axis a)) as [Ha | Ha];
    [rewrite gate_from_axis_gate_name by done | by rewrite gate_from_axis_invalid].
  simpl.
  destruct (decide (length (filter (λ q, q ≠ c) qs) ≤ length ths)).
  - by rewrite controlled_loop_ok by (simpl; lia).
  - apply controlled_loop_short. lia.
Qed.

(** ** dagger_and_flip on any program and any ordering *)

(** [dagger_and_flip] makes an instruction of one exactly when the name is
    a key of the registry, every qubit is a key of the dictionary, and the
    constructor accepts the angles and the qubits. *)
Lemma flip_gate_Ok (M : gmap nat nat) g g' :
  flip_gate M g = Ok g' ↔
    pyquil.name g ∈ registry_names
    ∧ arity_ok g
    ∧ ∃ qs', mapM (λ q, M !! q) (pyquil.qubits g) = Some qs'
             ∧ g' = pyquil.mkGate (emitted_name (pyquil.name g))
                      (map Z.opp (pyquil.params g)) qs'.
Proof.
  rewrite flip_gate_unfold.
  rewrite (map_ext (λ x, (-1 * x)%Z) Z.opp) by (intros; lia).
  rewrite <- gates_dict_is_Some.
  destruct (mapM _ _) as [qs|].
  - destruct (gates_dict !! pyquil.name g) as [c|] eqn:Hc.
    + destruct (decide (arity_ok g)) as [Har | Har]; split.
      * intros [= <-]. split_and!; [by eexists | done | by exists qs].
      * by intros (_ & _ & qs' & [= <-] & ->).
      * done.
      * by intros (_ & ? & _).
    + split; [done|]. by intros ([? ?] & _).
  - split; [done|]. by intros (_ & _ & qs' & ? & _).
Qed.

(** The loop returns a program exactly when every instruction is made, and
    then appends the instructions made, in their order. *)
Lemma flip_loop_Ok (M : gmap nat nat) gs : ∀ p p',
  flip_loop M gs p = Ok p' ↔
    ∃ gs', Forall2 (λ g g', flip_gate M g = Ok g') gs gs'
           ∧ p' = pyquil.mkProgram (pyquil.defined_gates p) (pyquil.instructions p ++ gs').
Proof.
  induction gs as [|g gs IH]; intros p p'; simpl.
  - split.
    + intros [= <-]. exists []. split; [constructor|]. rewrite app_nil_r. by destruct p.
    + intros (gs' & ->%Forall2_nil_inv_l & ->). rewrite app_nil_r. by destruct p.
  - destruct (flip_gate M g) as [g'|e] eqn:Hg; simpl.
    + rewrite IH. simpl. split.
      * intros (gs' & Hgs & ->). exists (g' :: gs'). split; [by constructor|].
        by rewrite <- app_assoc.
      * intros (gs'' & (g'' & gs' & Hg'' & Hgs & ->)%Forall2_cons_inv_l & ->).
        assert (g'' = g') as -> by congruence.
        exists gs'. split; [done|]. by rewrite <- app_assoc.
    + split; [done|].
      intros (gs'' & (g'' & gs' & Hg'' & _)%Forall2_cons_inv_l & _). congruence.
Qed.

Lemma dagger_and_flip_Ok (P : Program) (Q : list nat) P' :
  dagger_and_flip P Q = Ok P' ↔
    ∃ gs', Forall2 (λ g g', flip_gate (dict (zip Q (reverse Q))) g = Ok g')
             (reverse (pyquil.instructions P)) gs'
           ∧ P' = pyquil.mkProgram [] gs'.
Proof. unfold dagger_and_flip. by rewrite flip_loop_Ok. Qed.

(** The loop on a list of instructions in two parts, and on a program that
    has instructions already: whether and what it raises does not depend on
    the program it appends to. *)
Lemma flip_loop_app (M : gmap nat nat) gs1 gs2 : ∀ p,
  flip_loop M (gs1 ++ gs2) p = flip_loop M gs1 p ≫= flip_loop M gs2.
Proof.
  induction gs1 as [|g gs1 IH]; intros p; simpl; [done|].
  destruct (flip_gate M g); simpl; [apply IH | done].
Qed.

Lemma flip_loop_from (M : gmap nat nat) gs : ∀ p,
  flip_loop M gs p =
    r ← flip_loop M gs pyquil.empty;
    Ok (pyquil.mkProgram (pyquil.defined_gates p)
          (pyquil.instructions p ++ pyquil.instructions r)).
Proof.
  induction gs as [|g gs IH]; intros p; simpl.
  - rewrite app_nil_r. by destruct p.
  - destruct (flip_gate M g) as [g'|]; simpl; [|done].
    rewrite (IH (pyquil.inst p g')), (IH (pyquil.inst pyquil.empty g')).
    destruct (flip_loop M gs pyquil.empty); simpl; [|done].
    by rewrite <- app_assoc.
Qed.

(** X4. Whatever the program and the ordering, duplicates in the ordering
    included, a program returned by [dagger_and_flip] has no gate
    definition and as many instructions as the program given, and its
    [k]-th instruction is made from the [k]-th instruction from the end:
    the same name, except that CRZ becomes CRX, the angles negated, and the
    qubits looked up one by one in the dictionary of the ordering. *)
Theorem dagger_and_flip_instructions (P : Program) (Q : list nat) P' :
  dagger_and_flip P Q = Ok P' →
  pyquil.defined_gates P' = []
  ∧ length (pyquil.instructions P') = length (pyquil.instructions P)
  ∧ Forall2 (λ g g',
       pyquil.name g' = emitted_name (pyquil.name g)
       ∧ pyquil.params g' = map Z.opp (pyquil.params g)
       ∧ Forall2 (λ q q', dict (zip Q (reverse Q)) !! q = Some q')
           (pyquil.qubits g) (pyquil.qubits g'))
      (reverse (pyquil.instructions P)) (pyquil.instructions P').
Proof.
  intros (gs' & Hgs & ->)%dagger_and_flip_Ok. simpl.
  split_and!; [done | |].
  - apply Forall2_length in Hgs. by rewrite <- Hgs, length_reverse.
  - eapply Forall2_impl; [exact Hgs|]. intros g g' Hflip.
    apply flip_gate_Ok in Hflip as (_ & _ & qs' & Hqs & ->). simpl.
    split_and!; [done | done | by apply mapM_Some_1].
Qed.

Lemma dagger_and_flip_instructions_witness :
  dagger_and_flip
    (pyquil.mkProgram [crz_def] [pyquil.mkGate "RY" [4%Z] [2]; pyquil.mkGate "CRZ" [5%Z] [1; 0]])
    [0; 1; 2; 1]
  = Ok (pyquil.mkProgram [] [pyquil.mkGate "CRX" [(-5)%Z] [0; 1]; pyquil.mkGate "RY" [(-4)%Z] [1]])
  ∧ pyquil.defined_gates
      (pyquil.mkProgram [] [pyquil.mkGate "CRX" [(-5)%Z] [0; 1]; pyquil.mkGate "RY" [(-4)%Z] [1]])
    = []
  ∧ length (pyquil.instructions
      (pyquil.mkProgram [] [pyquil.mkGate "CRX" [(-5)%Z] [0; 1]; pyquil.mkGate "RY" [(-4)%Z] [1]]))
    = length (pyquil.instructions
        (pyquil.mkProgram [crz_def]
           [pyquil.mkGate "RY" [4%Z] [2]; pyquil.mkGate "CRZ" [5%Z] [1; 0]]))
  ∧ Forall2 (λ g g',
       pyquil.name g' = emitted_name (pyquil.name g)
       ∧ pyquil.params g' = map Z.opp (pyquil.params g)
       ∧ Forall2 (λ q q', dict (zip [0; 1; 2; 1] (reverse [0; 1; 2; 1])) !! q = Some q')
           (pyquil.qubits g) (pyquil.qubits g'))
      (reverse (pyquil.instructions
         (pyquil.mkProgram [crz_def]
            [pyquil.mkGate "RY" [4%Z] [2]; pyquil.mkGate "CRZ" [5%Z] [1; 0]])))
      (pyquil.instructions
         (pyquil.mkProgram [] [pyquil.mkGate "CRX" [(-5)%Z] [0; 1]; pyquil.mkGate "RY" [(-4)%Z] [1]])).
Proof.
  assert (dagger_and_flip
            (pyquil.mkProgram [crz_def]
               [pyquil.mkGate "RY" [4%Z] [2]; pyquil.mkGate "CRZ" [5%Z] [1; 0]])
            [0; 1; 2; 1]
          = Ok (pyquil.mkProgram []
                  [pyquil.mkGate "CRX" [(-5)%Z] [0; 1]; pyquil.mkGate "RY" [(-4)%Z] [1]]))
    as H by reflexivity.
  split; [exact H|].
  exact (dagger_and_flip_instructions _ _ _ H).
Defined.

(** X5. [dagger_and_flip] returns a program exactly when every instruction
    has a name that is a key of the registry, qubits that all occur in the
    ordering and, if it is one of a gate of pyquil (RX, RY, RZ), one angle
    and one qubit; in every other case it raises. *)
Theorem dagger_and_flip_succeeds_iff (P : Program) (Q : list nat) :
  (∃ P', dagger_and_flip P Q = Ok P')
  ↔ Forall (λ g, pyquil.name g ∈ registry_names
                 ∧ Forall (λ q, q ∈ Q) (pyquil.qubits g)
                 ∧ arity_ok g)
      (pyquil.instructions P).
Proof.
  assert (∀ g, (∃ g', flip_gate (dict (zip Q (reverse Q))) g = Ok g')
             ↔ pyquil.name g ∈ registry_names
               ∧ Forall (λ q, q ∈ Q) (pyquil.qubits g) ∧ arity_ok g)
    as Hgate.
  { intros g. split.
    - intros [g' (Hnm & Har & qs' & Hqs & _)%flip_gate_Ok]. split_and!; [done | | done].
      apply mapM_Some_1 in Hqs. apply Forall_lookup. intros i q Hq.
      destruct (Forall2_lookup_l _ _ _ _ _ Hqs Hq) as (q' & _ & HM).
      destruct (decide (q ∈ Q)) as [|Hnin]; [done|].
      apply qubits_reversed_None in Hnin. congruence.
    - intros (Hnm & Hqs & Har).
      destruct (mapM_is_Some_2 (λ q, dict (zip Q (reverse Q)) !! q) (pyquil.qubits g))
        as [qs' Hqs'].
      { eapply Forall_impl; [exact Hqs|]. intros q Hq. simpl.
        destruct (dict (zip Q (reverse Q)) !! q) eqn:HM; [by eexists|].
        by apply qubits_reversed_None in HM. }
      eexists. apply flip_gate_Ok. split_and!; [done | done |]. by exists qs'. }
  rewrite <- Forall_reverse. split.
  - intros [P' (gs' & Hgs & _)%dagger_and_flip_Ok].
    apply Forall_lookup. intros i g Hg. apply Hgate.
    destruct (Forall2_lookup_l _ _ _ _ _ Hgs Hg) as (g' & _ & Hg'). by exists g'.
  - intros Hall.
    assert (∃ gs', Forall2 (λ g g', flip_gate (dict (zip Q (reverse Q))) g = Ok g')
                     (reverse (pyquil.instructions P)) gs') as [gs' Hgs'].
    { induction Hall as [|g gs Hg _ [gs' IH]]; [by exists []|].
      apply Hgate in Hg as [g' Hg']. exists (g' :: gs'). by constructor. }
    eexists. apply dagger_and_flip_Ok. by exists gs'.
Qed.

Lemma mapM_option_app {A B} (f : A → option B) l1 l2 :
  mapM f (l1 ++ l2) = k1 ← mapM f l1; k2 ← mapM f l2; Some (k1 ++ k2).
Proof.
  induction l1 as [|x l1 IH]; simpl.
  - by destruct (mapM f l2).
  - destruct (f x); simpl; [|done]. rewrite IH.
    destruct (mapM f l1); simpl; [|done]. by destruct (mapM f l2).
Qed.

(** X6. [dagger_and_flip] turns concatenation around: on [p + q] it gives
    what it gives on [q] followed by what it gives on [p], and raises when
    it raises on one of them. *)
Theorem dagger_and_flip_add (P1 P2 : Program) (Q : list nat) :
  dagger_and_flip (pyquil.add P1 P2) Q =
    D2 ← dagger_and_flip P2 Q; D1 ← dagger_and_flip P1 Q; Ok (pyquil.add D2 D1).
Proof.
  unfold dagger_and_flip. simpl. rewrite reverse_app, flip_loop_app.
  destruct (flip_loop _ (reverse (pyquil.instructions P2)) _) as [D2|] eqn:H2; simpl; [|done].
  rewrite flip_loop_from.
  destruct (flip_loop _ (reverse (pyquil.instructions P1)) _) as [D1|] eqn:H1; simpl; [|done].
  apply flip_loop_Ok in H1 as (gs1 & _ & ->). simpl.
  unfold pyquil.add. simpl. by rewrite app_nil_r.
Qed.

Lemma dict_lookup_last `{Countable K} {V} (pairs : list (K * V)) k key v :
  pairs !! k = Some (key, v) →
  (∀ j v', k < j → pairs !! j ≠ Some (key, v')) →
  dict pairs !! key = Some v.
Proof.
  revert k. induction pairs as [|kv pairs IH] using rev_ind; intros k Hk Hlast; [done|].
  rewrite dict_snoc. destruct (decide (k = length pairs)) as [-> | Hne].
  - rewrite lookup_app_r, Nat.sub_diag in Hk by done. injection Hk as ->. simpl.
    apply lookup_insert_eq.
  - pose proof (lookup_lt_Some _ _ _ Hk) as Hlt. rewrite length_app in Hlt. simpl in Hlt.
    rewrite lookup_app_l in Hk by lia.
    rewrite lookup_insert_ne.
    + apply (IH k Hk). intros j v' Hj Hjv. apply (Hlast j v' Hj).
      by apply lookup_app_l_Some.
    + intros Heq. apply (Hlast (length pairs) kv.2); [lia|].
      rewrite lookup_app_r, Nat.sub_diag by done. simpl. rewrite <- Heq. by destruct kv.
Qed.

(** X7. In an ordering with a repeated qubit the last occurrence decides:
    the dictionary of [dagger_and_flip] maps a qubit to the entry opposite
    to its last position in the ordering. *)
Theorem qubits_reversed_last (Q : list nat) k q :
  Q !! k = Some q → (∀ j, k < j → Q !! j ≠ Some q) →
  dict (zip Q (reverse Q)) !! q = Q !! (length Q - 1 - k).
Proof.
  intros Hk Hlast. pose proof (lookup_lt_Some _ _ _ Hk) as Hlt.
  destruct (lookup_lt_is_Some_2 Q (length Q - 1 - k)) as [q' Hq']; [lia|].
  rewrite Hq'. apply (dict_lookup_last _ k).
  - apply lookup_zip_Some. split; [done|]. rewrite reverse_lookup by done.
    by replace (length Q - S k) with (length Q - 1 - k) by lia.
  - intros j v' Hj [Hjq _]%lookup_zip_Some. by apply (Hlast j).
Qed.

Lemma qubits_reversed_last_witness :
  [1; 2; 1; 3] !! 2 = Some 1
  ∧ (∀ j, 2 < j → [1; 2; 1; 3] !! j ≠ Some 1)
  ∧ dict (zip [1; 2; 1; 3] (reverse [1; 2; 1; 3])) !! 1
    = [1; 2; 1; 3] !! (length [1; 2; 1; 3] - 1 - 2).
Proof.
  assert (∀ j, 2 < j → [1; 2; 1; 3] !! j ≠ Some 1) as Hlast.
  { intros [|[|[|[|j]]]] Hj; simpl; (lia || discriminate). }
  split_and!; [reflexivity | exact Hlast |].
  exact (qubits_reversed_last [1; 2; 1; 3] 2 1 eq_refl Hlast).
Defined.

(** ** build_circuit: failures that come from the configuration *)

(** When the axes are valid a block can only raise IndexError, whatever the
    qubits and the angles. *)
Lemma block_call_raise_IndexError self b e :
  Forall valid_axis (axes self) → block_call self b = Raise e → e = IndexError.
Proof.
  intros Hax. rewrite Forall_lookup in Hax. unfold block_call.
  assert (∀ i (rest : string → result Program),
            (a ← getitem (axes self) i; rest a) = Raise e →
            (∀ a, valid_axis a → rest a = Raise e → e = IndexError) → e = IndexError)
    as Hstep.
  { intros i rest. unfold getitem. destruct (axes self !! i) as [a|] eqn:Ha; simpl.
    - intros Hr Hrest. by apply (Hrest a (Hax i a Ha)).
    - congruence. }
  repeat case_decide; intros Hr; apply (Hstep _ _ Hr); clear Hr; intros a Hva.
  - destruct (gate_from_axis_valid_1 a Hva) as (nm & _ & Hg).
    unfold build_rotation_block. rewrite Hg. simpl. apply rotation_loop_raise.
  - unfold getitem at 1. destruct (take _ _ !! _); simpl; [|congruence].
    destruct (gate_from_axis_valid_2 a Hva) as (nm & _ & _ & Hg).
    unfold build_controlled_rotation_block. rewrite Hg. simpl. apply controlled_loop_raise.
  - destruct (gate_from_axis_valid_1 a Hva) as (nm & _ & Hg).
    unfold build_rotation_block. rewrite Hg. simpl. apply rotation_loop_raise.
Qed.

Lemma build_circuit_IndexError self b :
  Forall valid_axis (axes self) → b < num_input_qubits self + 2 →
  block_call self b = Raise IndexError →
  (build_circuit self).1 = Raise IndexError.
Proof.
  intros Hax Hb Hfail. rewrite build_circuit_blocks. unfold_method.
  assert (∀ s, (run_blocks self (seq 0 (num_input_qubits self + 2)) s).1 = Raise IndexError)
    as Hrun.
  { apply run_blocks_IndexError.
    - intros b' e _. by apply block_call_raise_IndexError.
    - exists b. split; [apply elem_of_seq; lia | done]. }
  match goal with |- context [run_blocks self ?bs ?s] =>
    specialize (Hrun s); destruct (run_blocks self bs s) as [r s1] end.
  simpl in Hrun. by rewrite Hrun.
Qed.



(** X9. When the list of axes has fewer than [n + 2] entries, all of them
    X, Y or Z, [build_circuit] raises IndexError, whatever the qubits and
    the angles: the missing axis is looked up by its position. *)
Theorem build_circuit_short_axes N L thetas axes qubits :
  let self := init N L thetas axes qubits in
  Forall valid_axis (QAECircuit.axes self) →
  length (QAECircuit.axes self) < num_input_qubits self + 2 →
  (build_circuit self).1 = Raise IndexError.
Proof.
  intros self Hax Hlen.
  apply (build_circuit_IndexError self (num_input_qubits self + 1) Hax); [lia|].
  unfold block_call. rewrite decide_False by lia. rewrite decide_False by lia.
  rewrite getitem_ge; [done | lia].
Qed.

Lemma build_circuit_short_axes_witness :
  Forall valid_axis
    (QAECircuit.axes (init 4 0 [10; 11; 12; 13; 14; 15]%Z (Some ["X"; "Y"; "Z"]%string) None))
  ∧ length (QAECircuit.axes
              (init 4 0 [10; 11; 12; 13; 14; 15]%Z (Some ["X"; "Y"; "Z"]%string) None))
    < num_input_qubits
        (init 4 0 [10; 11; 12; 13; 14; 15]%Z (Some ["X"; "Y"; "Z"]%string) None) + 2
  ∧ (build_circuit
       (init 4 0 [10; 11; 12; 13; 14; 15]%Z (Some ["X"; "Y"; "Z"]%string) None)).1
    = Raise IndexError.
Proof.
  assert (Forall valid_axis
            (QAECircuit.axes
               (init 4 0 [10; 11; 12; 13; 14; 15]%Z (Some ["X"; "Y"; "Z"]%string) None)))
    as Hax.
  { constructor; [by left|]. constructor; [by right; left|].
    constructor; [by right; right|]. constructor. }
  assert (length (QAECircuit.axes
                    (init 4 0 [10; 11; 12; 13; 14; 15]%Z (Some ["X"; "Y"; "Z"]%string) None))
          < num_input_qubits
              (init 4 0 [10; 11; 12; 13; 14; 15]%Z (Some ["X"; "Y"; "Z"]%string) None) + 2)
    as Hlen by (vm_compute; lia).
  split_and!; [exact Hax | exact Hlen |].
  exact (build_circuit_short_axes 4 0 [10; 11; 12; 13; 14; 15]%Z
           (Some ["X"; "Y"; "Z"]%string) None Hax Hlen).
Defined.

(** ** build_circuit on valid configurations: the program returned *)

(** [build_circuit] on a freshly constructed object, with the blocks of the
    encode stage, which act on the input qubits. *)
Lemma build_circuit_init_blocks N L thetas axes qubits :
  let self := init N L thetas axes qubits in
  valid self →
  ∃ Ps D,
    Forall2 (λ b P, block_call self b = Ok P) (seq 0 (num_input_qubits self + 2)) Ps
    ∧ length (concat (map pyquil.instructions Ps)) = total_thetas (num_input_qubits self)
    ∧ Forall (rotation_on (take (num_input_qubits self) (QAECircuit.qubits self)))
        (concat (map pyquil.instructions Ps))
    ∧ mapM (dagger_flip_instruction (QAECircuit.qubits self))
        (reverse (concat (map pyquil.instructions Ps))) = Some D
    ∧ build_circuit self =
        (Ok (pyquil.mkProgram [crx_def; cry_def; crz_def]
               (concat (map pyquil.instructions Ps) ++ D)),
         set_program self
           (pyquil.mkProgram [crx_def; cry_def; crz_def]
              (concat (map pyquil.instructions Ps)))).
Proof.
  intros self [Hwf Hth].
  pose proof (well_formed_input_le _ Hwf) as Hinput.
  pose proof (wf_qubits_NoDup _ Hwf) as Hnd.
  destruct (blocks_built self Hinput Hnd (num_input_qubits self + 2)) as (Ps & Hcall & Hres).
  { done. }
  { intros b Hb. by apply well_formed_axes_lookup. }
  { intros b Hb. rewrite Hth. apply block_end_le. lia. }
  set (E := concat (map pyquil.instructions Ps)).
  assert (Forall (rotation_on (take (num_input_qubits self) (QAECircuit.qubits self))) E)
    as HrotE by (by eapply blocks_rotation).
  destruct (dagger_and_flip_rotation
    (pyquil.mkProgram [crx_def; cry_def; crz_def] E) (QAECircuit.qubits self) Hnd)
    as (D & HD & Hdag).
  { simpl. eapply Forall_impl; [exact HrotE|]. intros g. apply rotation_on_input_qubits. }
  exists Ps, D. fold E. split_and!; [done | | done | done |].
  - unfold E. erewrite blocks_length by done. apply sum_block_size_all.
  - rewrite build_circuit_blocks. unfold_method.
    rewrite (run_blocks_built self _ _ _ Hcall Hres). fold E. simpl.
    unfold finish. unfold_method.
    change (match qubits with Some q0 => q0 | None => seq 0 N end)
      with (QAECircuit.qubits self).
    rewrite Hdag. done.
Qed.

(** X10. With the default axes and the default ordering, no more latent
    qubits than qubits and [2 * n + n * (n - 1)] angles, the configuration
    is valid and [build_circuit] returns a program of twice as many
    instructions as there are angles. *)
Theorem build_circuit_defaults N L thetas :
  let n := (N + L) `div` 2 in
  L ≤ N → length thetas = total_thetas n →
  valid (init N L thetas None None)
  ∧ ∃ result,
      (build_circuit (init N L thetas None None)).1 = Ok result
      ∧ length (pyquil.instructions result) = 2 * length thetas.
Proof.
  intros n HL Hth.
  assert (valid (init N L thetas None None)) as Hv.
  { split; [split|];
      cbn [init QAECircuit.num_input_qubits QAECircuit.qubits QAECircuit.axes
           QAECircuit.thetas QAECircuit.num_qubits QAECircuit.num_latent_qubits]; fold n.
    - done.
    - rewrite length_seq. apply Nat.Div0.div_le_upper_bound. lia.
    - apply length_replicate.
    - apply Forall_replicate. by left.
    - by rewrite length_seq.
    - apply NoDup_seq.
    - done. }
  split; [done|].
  destruct (build_circuit_init N L thetas None None Hv) as (E & D & Hlen & _ & HD & _ & ->).
  eexists. split; [done|]. cbn [pyquil.instructions].
  apply length_mapM in HD. rewrite length_reverse in HD.
  rewrite length_app, <- HD, Hlen.
  change (num_input_qubits (init N L thetas None None)) with n. lia.
Qed.

Lemma build_circuit_defaults_witness :
  0 ≤ 4 ∧ length [10; 11; 12; 13; 14; 15]%Z = total_thetas ((4 + 0) `div` 2)
  ∧ valid (init 4 0 [10; 11; 12; 13; 14; 15]%Z None None)
  ∧ ∃ result,
      (build_circuit (init 4 0 [10; 11; 12; 13; 14; 15]%Z None None)).1 = Ok result
      ∧ length (pyquil.instructions result) = 2 * length [10; 11; 12; 13; 14; 15]%Z.
Proof.
  assert (0 ≤ 4) as HL by lia.
  split; [exact HL|]. split; [reflexivity|].
  exact (build_circuit_defaults 4 0 [10; 11; 12; 13; 14; 15]%Z HL eq_refl).
Defined.

(** X11. The program returned for a valid configuration carries the three
    gate definitions CRX, CRY and CRZ, once each and in this order, before
    its instructions, and none of its instructions is named CRZ: every
    instruction is named RX, RY, RZ, CRX or CRY. *)
Theorem build_circuit_definitions_and_names N L thetas axes qubits :
  let self := init N L thetas axes qubits in
  valid self →
  ∃ result,
    (build_circuit self).1 = Ok result
    ∧ pyquil.defined_gates result = [crx_def; cry_def; crz_def]
    ∧ Forall (λ g, pyquil.name g ∈ ["RX"; "RY"; "RZ"; "CRX"; "CRY"]%string)
        (pyquil.instructions result).
Proof.
  intros self Hv.
  destruct (build_circuit_init N L thetas axes qubits Hv)
    as (E & D & _ & Hrot & HD & _ & Hbuild).
  fold self in Hbuild, HD, Hrot. rewrite Hbuild.
  eexists. split_and!; [done | done |]. simpl. apply Forall_app. split.
  - eapply Forall_impl; [exact Hrot|]. by intros g (? & _ & ?).
  - apply mapM_Some_1 in HD. apply Forall_lookup. intros i d Hd.
    destruct (Forall2_lookup_r _ _ _ _ _ HD Hd) as (e & He & Hed).
    apply dagger_flip_instruction_Some in Hed as (-> & _).
    rewrite Forall_forall in Hrot.
    apply Hrot. apply elem_of_reverse. by eapply list_elem_of_lookup_2.
Qed.

Lemma build_circuit_definitions_and_names_witness :
  valid scenario
  ∧ ∃ result,
    (build_circuit scenario).1 = Ok result
    ∧ pyquil.defined_gates result = [crx_def; cry_def; crz_def]
    ∧ Forall (λ g, pyquil.name g ∈ ["RX"; "RY"; "RZ"; "CRX"; "CRY"]%string)
        (pyquil.instructions result).
Proof.
  split; [exact scenario_valid|].
  exact (build_circuit_definitions_and_names 4 0 [10; 11; 12; 13; 14; 15]%Z None None
           scenario_valid).
Defined.

Lemma position_reversal_mirror (Q : list nat) n q q' :
  NoDup Q → n ≤ length Q → q ∈ take n Q → position_reversal Q q = Some q' →
  q' ∈ drop (length Q - n) Q.
Proof.
  intros Hnd Hn (i & Hi & Hlt)%elem_of_take Hq.
  rewrite (position_reversal_lookup Q i q Hnd Hi) in Hq.
  apply list_elem_of_lookup. exists (n - 1 - i). rewrite lookup_drop.
  by replace (length Q - n + (n - 1 - i)) with (length Q - 1 - i) by lia.
Qed.

(** X12. For a valid configuration the encode stage acts on the first [n]
    qubits of the ordering only, and the decode stage on the last [n]
    qubits of the ordering only. *)
Theorem build_circuit_qubits N L thetas axes qubits :
  let self := init N L thetas axes qubits in
  let n := num_input_qubits self in
  let Q := QAECircuit.qubits self in
  valid self →
  ∃ result decode,
    (build_circuit self).1 = Ok result
    ∧ dagger_and_flip (program (build_circuit self).2) Q = Ok decode
    ∧ pyquil.instructions result
      = pyquil.instructions (program (build_circuit self).2) ++ pyquil.instructions decode
    ∧ Forall (λ g, Forall (λ q, q ∈ take n Q) (pyquil.qubits g))
        (pyquil.instructions (program (build_circuit self).2))
    ∧ Forall (λ g, Forall (λ q, q ∈ drop (length Q - n) Q) (pyquil.qubits g))
        (pyquil.instructions decode).
Proof.
  intros self n Q Hv.
  pose proof (well_formed_input_le _ (proj1 Hv)) as Hinput.
  pose proof (wf_qubits_NoDup _ (proj1 Hv)) as Hnd.
  destruct (build_circuit_init_blocks N L thetas axes qubits Hv)
    as (Ps & D & _ & _ & Hrot & HD & Hbuild).
  set (E := concat (map pyquil.instructions Ps)) in *.
  fold self in Hbuild, HD, Hrot. fold n in Hrot. fold Q in HD, Hrot. rewrite Hbuild. simpl.
  exists (pyquil.mkProgram [crx_def; cry_def; crz_def] (E ++ D)), (pyquil.mkProgram [] D).
  split_and!; [done | | done | |].
  - apply dagger_and_flip_mapM; [done | | done].
    eapply Forall_impl; [exact Hrot|]. intros g. apply rotation_on_input_qubits.
  - eapply Forall_impl; [exact Hrot|]. by intros g (_ & ? & _).
  - simpl. apply mapM_Some_1 in HD. apply Forall_lookup. intros i d Hd.
    destruct (Forall2_lookup_r _ _ _ _ _ HD Hd) as (e & He & Hed).
    apply dagger_flip_instruction_Some in Hed as (_ & _ & Hqs).
    assert (rotation_on (take n Q) e) as (_ & He' & _).
    { rewrite Forall_forall in Hrot. apply Hrot.
      apply elem_of_reverse. by eapply list_elem_of_lookup_2. }
    apply Forall_lookup. intros j q' Hq'.
    destruct (Forall2_lookup_r _ _ _ _ _ Hqs Hq') as (q & Hq & Hqq').
    apply (position_reversal_mirror Q n q q'); [done | done | | done].
    rewrite Forall_forall in He'. apply He'. by eapply list_elem_of_lookup_2.
Qed.

Lemma build_circuit_qubits_witness :
  valid scenario
  ∧ ∃ result decode,
    (build_circuit scenario).1 = Ok result
    ∧ dagger_and_flip (program (build_circuit scenario).2) (QAECircuit.qubits scenario)
      = Ok decode
    ∧ pyquil.instructions result
      = pyquil.instructions (program (build_circuit scenario).2)
          ++ pyquil.instructions decode
    ∧ Forall (λ g, Forall (λ q, q ∈ take (num_input_qubits scenario)
                                      (QAECircuit.qubits scenario)) (pyquil.qubits g))
        (pyquil.instructions (program (build_circuit scenario).2))
    ∧ Forall (λ g, Forall (λ q, q ∈ drop (length (QAECircuit.qubits scenario)
                                           - num_input_qubits scenario)
                                      (QAECircuit.qubits scenario)) (pyquil.qubits g))
        (pyquil.instructions decode).
Proof.
  split; [exact scenario_valid|].
  exact (build_circuit_qubits 4 0 [10; 11; 12; 13; 14; 15]%Z None None scenario_valid).
Defined.

Lemma mapM_option_app_Some {A B} (f : A → option B) l1 l2 k1 k2 :
  mapM f l1 = Some k1 → mapM f l2 = Some k2 → mapM f (l1 ++ l2) = Some (k1 ++ k2).
Proof. intros H1 H2. by rewrite mapM_option_app, H1, H2. Qed.

Lemma dagger_flip_round_trip Q E D :
  NoDup Q → Forall (rotation_on Q) E →
  mapM (dagger_flip_instruction Q) (reverse E) = Some D →
  Forall (rotation_on Q) D ∧ mapM (dagger_flip_instruction Q) (reverse D) = Some E.
Proof.
  intros Hnd Hrot HD. apply mapM_Some_1 in HD. split.
  - apply Forall_lookup. intros i d Hd.
    destruct (Forall2_lookup_r _ _ _ _ _ HD Hd) as (e & He & Hed).
    eapply dagger_flip_instruction_rotation; [exact Hed|].
    rewrite Forall_forall in Hrot. apply Hrot.
    apply elem_of_reverse. by eapply list_elem_of_lookup_2.
  - apply mapM_Some_2. apply Forall2_reverse in HD.
    rewrite reverse_involutive in HD. apply Forall2_flip.
    eapply Forall2_impl; [exact HD|].
    intros e d. by apply dagger_flip_instruction_involutive.
Qed.

(** X13. The circuit built for a valid configuration is its own dagger and
    flip: [dagger_and_flip] applied to the program returned, with the same
    ordering, gives back the instructions of that program, in the same
    order. *)
Theorem build_circuit_self_inverse N L thetas axes qubits :
  let self := init N L thetas axes qubits in
  valid self →
  ∃ result,
    (build_circuit self).1 = Ok result
    ∧ dagger_and_flip result (QAECircuit.qubits self)
      = Ok (pyquil.mkProgram [] (pyquil.instructions result)).
Proof.
  intros self Hv.
  pose proof (wf_qubits_NoDup _ (proj1 Hv)) as Hnd.
  destruct (build_circuit_init N L thetas axes qubits Hv)
    as (E & D & _ & Hrot & HD & _ & Hbuild).
  fold self in Hbuild, HD, Hrot. rewrite Hbuild.
  destruct (dagger_flip_round_trip _ E D Hnd Hrot HD) as [HrotD HE].
  eexists. split; [done|]. cbn [fst pyquil.instructions].
  apply dagger_and_flip_mapM; [done | by apply Forall_app |].
  rewrite reverse_app. by apply mapM_option_app_Some.
Qed.

Lemma build_circuit_self_inverse_witness :
  valid scenario
  ∧ ∃ result,
    (build_circuit scenario).1 = Ok result
    ∧ dagger_and_flip result (QAECircuit.qubits scenario)
      = Ok (pyquil.mkProgram [] (pyquil.instructions result)).
Proof.
  split; [exact scenario_valid|].
  exact (build_circuit_self_inverse 4 0 [10; 11; 12; 13; 14; 15]%Z None None scenario_valid).
Defined.

(** ** Angles beyond the ones needed *)

Lemma slice_app_le {A} (l e : list A) a b : b ≤ length l → slice (l ++ e) a b = slice l a b.
Proof.
  intros Hb. unfold slice. destruct (decide (a ≤ length l)) as [Ha | Ha].
  - rewrite drop_app_le by done. apply take_app_le. rewrite length_drop. lia.
  - by replace (b - a) with 0 by lia.
Qed.

Lemma block_call_surplus s1 s2 extra b :
  num_input_qubits s2 = num_input_qubits s1 →
  qubits s2 = qubits s1 → axes s2 = axes s1 →
  thetas s2 = thetas s1 ++ extra →
  total_thetas (num_input_qubits s1) ≤ length (thetas s1) →
  b ≤ num_input_qubits s1 + 1 →
  block_call s2 b = block_call s1 b.
Proof.
  intros Hn Hq Ha Ht Hlen Hb. unfold block_call. rewrite Hn, Hq, Ha, Ht.
  set (n := num_input_qubits s1) in *.
  pose proof (block_end_le n b Hb) as Hend. unfold block_start, block_size in Hend.
  destruct (decide (b = 0)) as [-> | Hb0].
  - destruct (getitem (axes s1) 0); simpl; [|done].
    rewrite take_app_le; [done|]. unfold total_thetas in Hlen. lia.
  - destruct (decide (b ≤ n)) as [Hbn | Hbn].
    + rewrite decide_True in Hend by lia.
      destruct (getitem (axes s1) _); simpl; [|done].
      destruct (getitem (take n (qubits s1)) _); simpl; [|done].
      rewrite slice_app_le; [done | lia].
    + rewrite decide_False in Hend by lia. assert (b = n + 1) as -> by lia.
      replace (n + 1 - 1) with n in Hend by lia.
      destruct (getitem (axes s1) _); simpl; [|done].
      rewrite slice_app_le; [done | lia].
Qed.

Lemma run_blocks_congr s1 s2 bs :
  (∀ b, b ∈ bs → block_call s2 b = block_call s1 b) →
  ∀ st1 st2, program st1 = program st2 →
    (run_blocks s1 bs st1).1 = (run_blocks s2 bs st2).1
    ∧ program (run_blocks s1 bs st1).2 = program (run_blocks s2 bs st2).2.
Proof.
  induction bs as [|b bs IH]; intros Hbs st1 st2 Hst; simpl; [done|].
  unfold_method. rewrite (Hbs b) by apply list_elem_of_here.
  destruct (block_call s1 b) as [P|e]; simpl; [|done].
  apply IH; [intros; apply Hbs; by apply list_elem_of_further|].
  simpl. by rewrite Hst.
Qed.

(** X14. Angles beyond the [2 * n + n * (n - 1)] first ones are never read:
    [build_circuit] gives the same result, a program or an exception, with
    and without them.  A list of angles that is too long is not rejected. *)
Theorem build_circuit_surplus_thetas N L thetas extra axes qubits :
  total_thetas ((N + L) `div` 2) ≤ length thetas →
  (build_circuit (init N L (thetas ++ extra) axes qubits)).1
  = (build_circuit (init N L thetas axes qubits)).1.
Proof.
  intros Hlen.
  set (s1 := init N L thetas axes qubits). set (s2 := init N L (thetas ++ extra) axes qubits).
  rewrite !build_circuit_blocks. unfold_method.
  match goal with |- context [run_blocks s2 ?bs ?u2] =>
    match goal with |- context [run_blocks s1 bs ?u1] =>
      assert (∀ b, b ∈ bs → block_call s2 b = block_call s1 b) as Hbs;
      [ | destruct (run_blocks_congr s1 s2 bs Hbs u1 u2 eq_refl) as [Hr Hp];
          destruct (run_blocks s1 bs u1) as [r1 t1], (run_blocks s2 bs u2) as [r2 t2] ]
    end
  end.
  - intros b [_ Hb]%elem_of_seq.
    apply (block_call_surplus s1 s2 extra); [done | done | done | done | done |].
    unfold s1, s2 in *. simpl in *. lia.
  - simpl in Hr, Hp. subst r2. destruct r1 as [[]|e]; [|done].
    unfold finish. unfold_method. rewrite Hp.
    change (QAECircuit.qubits s2) with (QAECircuit.qubits s1).
    by destruct (dagger_and_flip _ _).
Qed.

Lemma build_circuit_surplus_thetas_witness :
  total_thetas ((4 + 0) `div` 2) ≤ length [10; 11; 12; 13; 14; 15]%Z
  ∧ (build_circuit (init 4 0 ([10; 11; 12; 13; 14; 15] ++ [16; 17])%Z None None)).1
    = (build_circuit (init 4 0 [10; 11; 12; 13; 14; 15]%Z None None)).1.
Proof.
  assert (total_thetas ((4 + 0) `div` 2) ≤ length [10; 11; 12; 13; 14; 15]%Z) as Hlen
    by (vm_compute; lia).
  split; [exact Hlen|].
  exact (build_circuit_surplus_thetas 4 0 [10; 11; 12; 13; 14; 15]%Z [16; 17]%Z None None Hlen).
Defined.


(** ** The angles and the qubits of the instructions *)

Lemma fmap_zip_with_fst {A B C D} (h : C → D) (f : A → B → C) (g : A → D) l k :
  (∀ x y, h (f x y) = g x) → length l ≤ length k → h <$> zip_with f l k = g <$> l.
Proof.
  intros Hh. revert k. induction l as [|x l IH]; intros [|y k] Hlen; simpl in *; try done.
  - lia.
  - rewrite Hh. f_equal. apply IH. lia.
Qed.

Lemma fmap_zip_with_snd {A B C D} (h : C → D) (f : A → B → C) (g : B → D) l k :
  (∀ x y, h (f x y) = g y) → length k ≤ length l → h <$> zip_with f l k = g <$> k.
Proof.
  intros Hh. revert k. induction l as [|x l IH]; intros [|y k] Hlen; simpl in *; try done.
  - lia.
  - rewrite Hh. f_equal. apply IH. lia.
Qed.

Lemma fmap_concat {A B} (f : A → B) (L : list (list A)) :
  f <$> concat L = concat (map (fmap f) L).
Proof. induction L as [|l L IH]; simpl; [done|]. by rewrite fmap_app, IH. Qed.

Lemma slice_take_drop {A} (l : list A) s z : slice l s (s + z) = take z (drop s l).
Proof. unfold slice. by replace (s + z - s) with z by lia. Qed.

Section shape.
Variable self : t.
Let n := num_input_qubits self.
Hypothesis Hinput : n ≤ length (qubits self).
Hypothesis Hnodup : NoDup (qubits self).

Lemma block_call_shape b a :
  b ≤ n + 1 → axes self !! b = Some a → valid_axis a →
  block_start n b + block_size n b ≤ length (thetas self) →
  ∃ P, block_call self b = Ok P
       ∧ pyquil.params <$> pyquil.instructions P
         = (λ th, [th]) <$> block_thetas (thetas self) n b
       ∧ pyquil.qubits <$> pyquil.instructions P
         = block_qubits (take n (qubits self)) n b.
Proof.
  intros Hb Ha Hv. unfold block_call, block_thetas, block_qubits, block_start, block_size.
  fold n.
  pose proof (length_input_qubits self Hinput) as Hlen. fold n in Hlen.
  pose proof (NoDup_input_qubits self Hnodup) as Hnd. fold n in Hnd.
  destruct (decide (b = 0)) as [-> | Hb0].
  - rewrite !decide_False by lia. intros Hth.
    rewrite (getitem_Some _ _ _ Ha). simpl.
    destruct (build_rotation_block_ok a (take n (qubits self)) (take n (thetas self)) Hv)
      as (nm & _ & ->).
    { rewrite Hlen, length_take. lia. }
    eexists. split; [done|]. simpl.
    assert (slice (thetas self) 0 n = take n (thetas self)) as ->
      by (unfold slice; by rewrite Nat.sub_0_r).
    split.
    + apply fmap_zip_with_fst; [done|]. rewrite Hlen, length_take. lia.
    + apply fmap_zip_with_snd; [done|]. rewrite Hlen, length_take. lia.
  - destruct (decide (b ≤ n)) as [Hbn | Hbn].
    + rewrite !decide_True by lia. intros Hth.
      replace (b - 1 + 1) with b by lia.
      rewrite (getitem_Some _ _ _ Ha). simpl.
      destruct (getitem_lt (take n (qubits self)) (b - 1)) as (c & Hc & ->); [lia|].
      simpl. rewrite (list_lookup_total_correct _ _ _ Hc).
      assert (c ∈ take n (qubits self)) as Hin by (by eapply list_elem_of_lookup_2).
      pose proof (length_filter_control _ c Hnd Hin) as Hf.
      destruct (build_controlled_rotation_block_ok a (take n (qubits self))
                  (slice (thetas self) (n + (n - 1) * (b - 1))
                     (n + (n - 1) * (b - 1) + (n - 1))) c Hv) as (nm & _ & _ & ->).
      { rewrite Hf, Hlen, length_slice. lia. }
      eexists. split; [done|]. simpl. split.
      * apply fmap_zip_with_fst; [done|]. rewrite Hf, Hlen, length_slice. lia.
      * unfold controlled_pairs. apply fmap_zip_with_snd; [done|].
        rewrite Hf, Hlen, length_slice. lia.
    + rewrite !decide_False by lia. intros Hth.
      assert (b = n + 1) as -> by lia.
      replace (n + 1 - 1) with n in * by lia.
      rewrite (getitem_Some _ _ _ Ha). simpl.
      destruct (build_rotation_block_ok a (take n (qubits self))
                  (slice (thetas self) (n + (n - 1) * n) (n + (n - 1) * n + n)) Hv)
        as (nm & _ & ->).
      { rewrite Hlen, length_slice. lia. }
      eexists. split; [done|]. simpl. split.
      * apply fmap_zip_with_fst; [done|]. rewrite Hlen, length_slice. lia.
      * apply fmap_zip_with_snd; [done|]. rewrite Hlen, length_slice. lia.
Qed.
End shape.

Lemma Forall2_impl_elem {A B} (R S : A → B → Prop) l k :
  Forall2 R l k → (∀ x y, x ∈ l → R x y → S x y) → Forall2 S l k.
Proof.
  induction 1 as [|x y l k HR _ IH]; intros HS; constructor.
  - apply HS; [apply list_elem_of_here | done].
  - apply IH. intros x' y' Hx'. apply HS. by apply list_elem_of_further.
Qed.

Lemma Forall2_fmap_eq {A B C} (F : A → C) (G : B → C) l k :
  Forall2 (λ x y, G y = F x) l k → G <$> k = F <$> l.
Proof. induction 1 as [|x y l k Hxy _ IH]; [done|]. rewrite !fmap_cons. by f_equal. Qed.

Lemma seq_lookup_total {A B} `{Inhabited A} (F : A → B) (l : list A) :
  (λ b, F (l !!! (b - 1))) <$> seq 1 (length l) = F <$> l.
Proof.
  apply list_eq. intros i. rewrite !list_lookup_fmap.
  destruct (decide (i < length l)) as [Hi | Hi].
  - rewrite lookup_seq_lt by done. simpl. rewrite Nat.sub_0_r.
    destruct (lookup_lt_is_Some_2 l i Hi) as [x Hx]. rewrite Hx. simpl.
    by rewrite (list_lookup_total_correct _ _ _ Hx).
  - rewrite lookup_seq_ge by lia. by rewrite lookup_ge_None_2 by lia.
Qed.

(** The angles of the blocks before block [j] are the angles before the
    first angle of block [j]. *)
Lemma block_thetas_concat (ths : list Z) n j :
  j ≤ n + 1 →
  concat (map (block_thetas ths n) (seq 0 j)) = take (block_start n j) ths.
Proof.
  induction j as [|j IH]; intros Hj; [done|].
  rewrite seq_S, map_app, concat_app, IH by lia. simpl. rewrite app_nil_r.
  unfold block_thetas. rewrite slice_take_drop, take_take_drop.
  by rewrite block_start_S by lia.
Qed.

Lemma block_thetas_concat_all (ths : list Z) n :
  length ths = total_thetas n →
  concat (map (block_thetas ths n) (seq 0 (n + 2))) = ths.
Proof.
  intros Hlen. replace (n + 2) with (S (n + 1)) by lia.
  rewrite seq_S, map_app, concat_app, block_thetas_concat by lia. simpl.
  rewrite app_nil_r. unfold block_thetas. rewrite slice_take_drop, take_take_drop.
  apply take_ge. unfold block_size. rewrite decide_False by lia.
  rewrite block_start_final. lia.
Qed.

(** The qubit lists of all the blocks. *)
Lemma block_qubits_concat (qs : list nat) :
  concat (map (block_qubits qs (length qs)) (seq 0 (length qs + 2)))
  = ((λ q, [q]) <$> qs) ++ concat (controlled_pairs qs <$> qs) ++ ((λ q, [q]) <$> qs).
Proof.
  replace (length qs + 2) with (1 + (length qs + 1)) by lia.
  rewrite seq_app, (seq_app (length qs) 1). simpl seq.
  rewrite !map_app, !concat_app. simpl. rewrite app_nil_r.
  unfold block_qubits at 1. rewrite decide_False by lia.
  unfold block_qubits at 2. rewrite decide_False by lia.
  rewrite app_nil_r. do 2 f_equal. f_equal.
  rewrite <- (seq_lookup_total (controlled_pairs qs) qs).
  apply (Forall_fmap_ext_1 (block_qubits qs (length qs))).
  apply Forall_forall. intros b [? ?]%elem_of_seq.
  unfold block_qubits. by rewrite decide_True by lia.
Qed.

(** The angles and the qubits of the encode stage of a valid
    configuration. *)
Lemma build_circuit_init_shape N L thetas axes qubits :
  let self := init N L thetas axes qubits in
  let qs := take (num_input_qubits self) (QAECircuit.qubits self) in
  valid self →
  ∃ E D,
    pyquil.params <$> E = (λ th, [th]) <$> thetas
    ∧ pyquil.qubits <$> E
      = ((λ q, [q]) <$> qs) ++ concat (controlled_pairs qs <$> qs) ++ ((λ q, [q]) <$> qs)
    ∧ Forall (rotation_on (QAECircuit.qubits self)) E
    ∧ mapM (dagger_flip_instruction (QAECircuit.qubits self)) (reverse E) = Some D
    ∧ build_circuit self =
        (Ok (pyquil.mkProgram [crx_def; cry_def; crz_def] (E ++ D)),
         set_program self (pyquil.mkProgram [crx_def; cry_def; crz_def] E)).
Proof.
  intros self qs Hv.
  pose proof (well_formed_input_le _ (proj1 Hv)) as Hinput.
  pose proof (wf_qubits_NoDup _ (proj1 Hv)) as Hnd.
  destruct (build_circuit_init_blocks N L thetas axes qubits Hv)
    as (Ps & D & Hcall & _ & Hrot & HD & Hbuild).
  fold self in Hcall, Hrot, HD, Hbuild.
  set (n := num_input_qubits self) in *.
  assert (Forall2 (λ b P,
            pyquil.params <$> pyquil.instructions P
              = (λ th, [th]) <$> block_thetas thetas n b
            ∧ pyquil.qubits <$> pyquil.instructions P = block_qubits qs n b)
            (seq 0 (n + 2)) Ps) as Hshape.
  { eapply Forall2_impl_elem; [exact Hcall|]. intros b P [_ Hb]%elem_of_seq HP. simpl in HP.
    destruct (well_formed_axes_lookup self b (proj1 Hv)) as (a & Ha & Hva); [fold n; lia|].
    destruct (block_call_shape self Hinput Hnd b a) as (P' & HP' & Hshape);
      [fold n; lia | done | done | |].
    { fold n. rewrite (proj2 Hv). apply block_end_le. lia. }
    rewrite HP in HP'. injection HP' as <-. exact Hshape. }
  exists (concat (map pyquil.instructions Ps)), D.
  split_and!; [| | | done | done].
  - rewrite fmap_concat, map_map.
    rewrite <- (block_thetas_concat_all thetas n (proj2 Hv)) at 1.
    rewrite fmap_concat, map_map. f_equal.
    apply (Forall2_fmap_eq (λ b, (λ th, [th]) <$> block_thetas thetas n b)
             (λ P, pyquil.params <$> pyquil.instructions P)).
    eapply Forall2_impl; [exact Hshape|]. by intros b P [? _].
  - rewrite fmap_concat, map_map.
    assert (length qs = n) as Hlen by (by apply length_take_le).
    rewrite <- (block_qubits_concat qs), Hlen. f_equal.
    apply (Forall2_fmap_eq (block_qubits qs n)
             (λ P, pyquil.qubits <$> pyquil.instructions P)).
    eapply Forall2_impl; [exact Hshape|]. by intros b P [_ ?].
  - eapply Forall_impl; [exact Hrot|]. intros g. apply rotation_on_input_qubits.
Qed.

(** X15. For a valid configuration every angle is used exactly once and in
    order: the [k]-th instruction of the encode stage has the single angle
    [thetas[k]], and the [k]-th instruction of the decode stage the single
    angle [- thetas[len - 1 - k]]. *)
Theorem build_circuit_angles N L thetas axes qubits :
  let self := init N L thetas axes qubits in
  valid self →
  ∃ result decode,
    (build_circuit self).1 = Ok result
    ∧ dagger_and_flip (program (build_circuit self).2) (QAECircuit.qubits self) = Ok decode
    ∧ pyquil.instructions result
      = pyquil.instructions (program (build_circuit self).2) ++ pyquil.instructions decode
    ∧ pyquil.params <$> pyquil.instructions (program (build_circuit self).2)
      = (λ th, [th]) <$> thetas
    ∧ pyquil.params <$> pyquil.instructions decode
      = (λ th, [(- th)%Z]) <$> reverse thetas.
Proof.
  intros self Hv.
  pose proof (wf_qubits_NoDup _ (proj1 Hv)) as Hnd.
  destruct (build_circuit_init_shape N L thetas axes qubits Hv)
    as (E & D & Hparams & _ & Hrot & HD & Hbuild).
  fold self in Hrot, HD, Hbuild. rewrite Hbuild.
  exists (pyquil.mkProgram [crx_def; cry_def; crz_def] (E ++ D)), (pyquil.mkProgram [] D).
  cbn [fst snd program set_program pyquil.instructions].
  split_and!; [done | by apply dagger_and_flip_mapM | done | done |].
  apply mapM_Some_1 in HD.
  rewrite (Forall2_fmap_eq (λ e, map Z.opp (pyquil.params e)) pyquil.params (reverse E) D).
  - rewrite (list_fmap_compose pyquil.params (map Z.opp)), fmap_reverse, Hparams.
    rewrite <- fmap_reverse, <- list_fmap_compose. done.
  - eapply Forall2_impl; [exact HD|].
    by intros e d (_ & ? & _)%dagger_flip_instruction_Some.
Qed.

Lemma build_circuit_angles_witness :
  valid scenario
  ∧ ∃ result decode,
    (build_circuit scenario).1 = Ok result
    ∧ dagger_and_flip (program (build_circuit scenario).2) (QAECircuit.qubits scenario)
      = Ok decode
    ∧ pyquil.instructions result
      = pyquil.instructions (program (build_circuit scenario).2)
          ++ pyquil.instructions decode
    ∧ pyquil.params <$> pyquil.instructions (program (build_circuit scenario).2)
      = (λ th, [th]) <$> [10; 11; 12; 13; 14; 15]%Z
    ∧ pyquil.params <$> pyquil.instructions decode
      = (λ th, [(- th)%Z]) <$> reverse [10; 11; 12; 13; 14; 15]%Z.
Proof.
  split; [exact scenario_valid|].
  exact (build_circuit_angles 4 0 [10; 11; 12; 13; 14; 15]%Z None None scenario_valid).
Defined.

(** X16. For a valid configuration the encode stage visits the input qubits
    [qs] (the first [n] of the ordering) as follows: one single-qubit
    instruction on each of them in order, then, for each input qubit taken
    as control in order, one instruction on (control, target) for each other
    input qubit in order, so that every ordered pair of distinct input
    qubits occurs, then again one single-qubit instruction on each. *)
Theorem build_circuit_encode_qubits N L thetas axes qubits :
  let self := init N L thetas axes qubits in
  let qs := take (num_input_qubits self) (QAECircuit.qubits self) in
  valid self →
  pyquil.qubits <$> pyquil.instructions (program (build_circuit self).2)
  = ((λ q, [q]) <$> qs)
    ++ concat ((λ c, (λ t, [c; t]) <$> filter (λ q, q ≠ c) qs) <$> qs)
    ++ ((λ q, [q]) <$> qs).
Proof.
  intros self qs Hv.
  destruct (build_circuit_init_shape N L thetas axes qubits Hv)
    as (E & D & _ & Hqubits & _ & _ & Hbuild).
  fold self in Hbuild. rewrite Hbuild. exact Hqubits.
Qed.

Lemma build_circuit_encode_qubits_witness :
  valid scenario
  ∧ pyquil.qubits <$> pyquil.instructions (program (build_circuit scenario).2)
    = ((λ q, [q]) <$> take (num_input_qubits scenario) (QAECircuit.qubits scenario))
      ++ concat ((λ c, (λ t, [c; t])
                         <$> filter (λ q, q ≠ c)
                               (take (num_input_qubits scenario) (QAECircuit.qubits scenario)))
                   <$> take (num_input_qubits scenario) (QAECircuit.qubits scenario))
      ++ ((λ q, [q]) <$> take (num_input_qubits scenario) (QAECircuit.qubits scenario)).
Proof.
  split; [exact scenario_valid|].
  exact (build_circuit_encode_qubits 4 0 [10; 11; 12; 13; 14; 15]%Z None None scenario_valid).
Defined.

(** ** No input qubit *)

(** X17. When [N + L < 2] there is no input qubit, since [n] is
    [(N + L) / 2] rounded down: with the default axes and ordering
    [build_circuit] then returns the three gate definitions and no
    instruction, whatever the angles.  A single qubit without latent qubit
    is such a configuration. *)
Theorem build_circuit_no_input_qubit N L thetas :
  N + L < 2 →
  (build_circuit (init N L thetas None None)).1
  = Ok (pyquil.mkProgram [crx_def; cry_def; crz_def] []).
Proof.
  intros HNL.
  assert ((N = 0 ∧ L = 0) ∨ (N = 1 ∧ L = 0) ∨ (N = 0 ∧ L = 1)) as Hcases by lia.
  destruct Hcases as [[-> ->] | [[-> ->] | [-> ->]]]; reflexivity.
Qed.

Lemma build_circuit_no_input_qubit_witness :
  1 + 0 < 2
  ∧ (build_circuit (init 1 0 [10; 11]%Z None None)).1
    = Ok (pyquil.mkProgram [crx_def; cry_def; crz_def] []).
Proof.
  assert (1 + 0 < 2) as H by lia.
  split; [exact H|].
  exact (build_circuit_no_input_qubit 1 0 [10; 11]%Z H).
Defined.

(** ** The names of the instructions *)

Lemma fmap_zip_with_const {A B C D} (h : C → D) (f : A → B → C) (d : D) l k :
  (∀ x y, h (f x y) = d) → h <$> zip_with f l k = replicate (length l `min` length k) d.
Proof.
  intros Hh. revert k. induction l as [|x l IH]; intros [|y k]; simpl; try done.
  rewrite Hh. f_equal. apply IH.
Qed.

Section names.
Variable self : t.
Let n := num_input_qubits self.
Hypothesis Hinput : n ≤ length (qubits self).
Hypothesis Hnodup : NoDup (qubits self).

Lemma block_call_names b a :
  b ≤ n + 1 → axes self !! b = Some a → valid_axis a →
  block_start n b + block_size n b ≤ length (thetas self) →
  ∃ P, block_call self b = Ok P
       ∧ pyquil.name <$> pyquil.instructions P = block_names (axes self) n b.
Proof.
  intros Hb Ha Hv. unfold block_call, block_names, block_start, block_size.
  rewrite (list_lookup_total_correct _ _ _ Ha). fold n.
  pose proof (length_input_qubits self Hinput) as Hlen. fold n in Hlen.
  pose proof (NoDup_input_qubits self Hnodup) as Hnd. fold n in Hnd.
  destruct (decide (b = 0)) as [-> | Hb0].
  - rewrite !decide_False by lia. intros Hth.
    rewrite (getitem_Some _ _ _ Ha). simpl.
    unfold build_rotation_block. rewrite (gate_from_axis_gate_name a 1 Hv). simpl.
    rewrite rotation_loop_ok by (simpl; rewrite Hlen, length_take; lia).
    eexists. split; [done|]. simpl.
    rewrite (fmap_zip_with_const _ _ (gate_name a 1)) by done.
    f_equal. rewrite length_drop, Hlen, length_take. lia.
  - destruct (decide (b ≤ n)) as [Hbn | Hbn].
    + rewrite !decide_True by lia. intros Hth.
      replace (b - 1 + 1) with b by lia.
      rewrite (getitem_Some _ _ _ Ha). simpl.
      destruct (getitem_lt (take n (qubits self)) (b - 1)) as (c & Hc & ->); [lia|].
      simpl.
      assert (c ∈ take n (qubits self)) as Hin by (by eapply list_elem_of_lookup_2).
      pose proof (length_filter_control _ c Hnd Hin) as Hf.
      unfold build_controlled_rotation_block. rewrite (gate_from_axis_gate_name a 2 Hv).
      simpl.
      rewrite controlled_loop_ok by (simpl; rewrite Hf, Hlen, length_slice; lia).
      eexists. split; [done|]. simpl.
      rewrite (fmap_zip_with_const _ _ (gate_name a 2)) by done.
      f_equal. rewrite length_drop, Hf, Hlen, length_slice. lia.
    + rewrite !decide_False by lia. intros Hth.
      assert (b = n + 1) as -> by lia.
      replace (n + 1 - 1) with n in * by lia.
      rewrite (getitem_Some _ _ _ Ha). simpl.
      unfold build_rotation_block. rewrite (gate_from_axis_gate_name a 1 Hv). simpl.
      rewrite rotation_loop_ok by (simpl; rewrite Hlen, length_slice; lia).
      eexists. split; [done|]. simpl.
      rewrite (fmap_zip_with_const _ _ (gate_name a 1)) by done.
      f_equal. rewrite length_drop, Hlen, length_slice. lia.
Qed.
End names.

(** X18. For a valid configuration the names of the instructions of the
    encode stage follow the axes block by block: [n] instructions named
    after the single-qubit gate of [axes[0]], then for each [b] from [1] to
    [n] the [n - 1] instructions of a controlled block named after the
    two-qubit gate of [axes[b]], which is CRX for the axes X and Z and CRY
    for the axis Y, then [n] instructions named after the single-qubit gate
    of [axes[n + 1]]. *)
Theorem build_circuit_encode_names N L thetas axes qubits :
  let self := init N L thetas axes qubits in
  let n := num_input_qubits self in
  valid self →
  pyquil.name <$> pyquil.instructions (program (build_circuit self).2)
  = concat (block_names (QAECircuit.axes self) n <$> seq 0 (n + 2)).
Proof.
  intros self n Hv.
  pose proof (well_formed_input_le _ (proj1 Hv)) as Hinput.
  pose proof (wf_qubits_NoDup _ (proj1 Hv)) as Hnd.
  destruct (build_circuit_init_blocks N L thetas axes qubits Hv)
    as (Ps & D & Hcall & _ & _ & _ & Hbuild).
  fold self in Hcall, Hbuild. fold n in Hcall. rewrite Hbuild.
  cbn [snd program set_program pyquil.instructions].
  rewrite fmap_concat, map_map. f_equal.
  apply (Forall2_fmap_eq (block_names (QAECircuit.axes self) n)
           (λ P, pyquil.name <$> pyquil.instructions P)).
  eapply Forall2_impl_elem; [exact Hcall|]. intros b P [_ Hb]%elem_of_seq HP. simpl in HP.
  destruct (well_formed_axes_lookup self b (proj1 Hv)) as (a & Ha & Hva); [fold n; lia|].
  destruct (block_call_names self Hinput Hnd b a) as (P' & HP' & Hnames);
    [fold n; lia | done | done | |].
  { fold n. rewrite (proj2 Hv). apply block_end_le. lia. }
  rewrite HP in HP'. injection HP' as <-. exact Hnames.
Qed.

Lemma build_circuit_encode_names_witness :
  valid (init 4 0 [10; 11; 12; 13; 14; 15]%Z (Some ["Y"; "Z"; "Y"; "Z"]%string) None)
  ∧ pyquil.name
      <$> pyquil.instructions
            (program (build_circuit
               (init 4 0 [10; 11; 12; 13; 14; 15]%Z (Some ["Y"; "Z"; "Y"; "Z"]%string) None)).2)
    = concat (block_names
                (QAECircuit.axes
                   (init 4 0 [10; 11; 12; 13; 14; 15]%Z (Some ["Y"; "Z"; "Y"; "Z"]%string) None))
                (num_input_qubits
                   (init 4 0 [10; 11; 12; 13; 14; 15]%Z (Some ["Y"; "Z"; "Y"; "Z"]%string) None))
              <$> seq 0 (num_input_qubits
                   (init 4 0 [10; 11; 12; 13; 14; 15]%Z (Some ["Y"; "Z"; "Y"; "Z"]%string) None)
                 + 2)).
Proof.
  assert (valid (init 4 0 [10; 11; 12; 13; 14; 15]%Z (Some ["Y"; "Z"; "Y"; "Z"]%string) None))
    as Hv.
  { split; [split|]; simpl; [reflexivity | lia | reflexivity | | lia | | reflexivity].
    - constructor; [by right; left|]. constructor; [by right; right|].
      constructor; [by right; left|]. constructor; [by right; right|]. constructor.
    - apply (NoDup_seq 0 4). }
  split; [exact Hv|].
  exact (build_circuit_encode_names 4 0 [10; 11; 12; 13; 14; 15]%Z
           (Some ["Y"; "Z"; "Y"; "Z"]%string) None Hv).
Defined.
